(** * The sqlite3 entry store of main.py

    A shallow embedding of [SqliteApp]'s storage methods ([init_sqlite3],
    [ingest_sqlite3], [delete_sqlite_entries]) and of the projection
    [load_button], over a small model of the [sqlite3] module: database
    files on a disk, connection objects in a store, cursors, implicit
    transactions and commits.  Python exceptions are results of an
    exception-and-state monad; [try]/[except] and [with closing(...)] are
    combinators of that monad. *)

From Stdlib Require Import ZArith List String Ascii Lia Permutation.
From stdpp Require Import base gmap strings list pretty.

Open Scope string_scope.
Open Scope Z_scope.

(** ** Module constants (main.py, lines 24-33) *)

Definition DB_NAME : string := "test.db".

Definition COLORS : list string :=
  ["1_0.0_0.0"; "0.0_1_0.0"; "0.0_0.0_1"; "0.5_0.5_0.5"; "0.0_0.0_0.0"; "1_1_1"].

Definition TEXTS : list string :=
  ["Test text 1"; "blah blah blah"; "New info: top secret!";
   "Test text 2"; "Lorem Ipsum"; "That's My Bag"].

(** Names bound at module level by the imports, the constants and the class
    definitions of main.py.  Any other free name raises [NameError]. *)
Definition module_names : list string :=
  ["kivy"; "os"; "random"; "sqlite3";
   "App"; "Logger"; "LOG_LEVELS"; "Button"; "GridLayout"; "ScrollView"; "Widget";
   "closing"; "Any"; "List"; "NamedTuple"; "Optional"; "Tuple"; "Union";
   "DB_NAME"; "COLORS"; "TEXTS";
   "EntryButton"; "EntryLayout"; "SqliteAppRoot"; "SqliteApp"].

(** The double-quote character, for messages that contain it. *)
Definition dq : string := String "034"%char EmptyString.

(** ** Values, tables and SQL statements *)

(** Python values that occur in rows and in colour tuples. *)
Inductive pyval : Type :=
| PStr (s : string)
| PInt (n : Z).

#[global] Instance pyval_eq_dec : EqDecision pyval.
Proof. solve_decision. Defined.

(** A row is a tuple of column values. *)
Definition row : Type := list pyval.

Record table : Type := Table {
  columns : list (string * string);   (* column name, declared type *)
  rows : list row                     (* in storage (insertion) order *)
}.

(** The statements main.py sends to the engine.  [DeleteFrom] is the
    f-string [DELETE FROM {table_name};] with [table_name] an identifier. *)
Inductive stmt : Type :=
| CreateTableIfNotExists (name : string) (cols : list (string * string))
| SelectCountStar (name : string)
| SelectStar (name : string)
| InsertValues (name : string) (params : list pyval)
| DeleteFrom (name : string).

(** What a path holds: nothing (absent from the map, and creatable), a
    database file, or something that cannot be opened as a database
    (missing or unwritable directory, a directory, ...). *)
Inductive fnode : Type :=
| Blocked
| Db (d : gmap string table).

(** An open connection: its file, its view of the database (committed
    contents plus the changes of the open transaction) and whether a
    transaction is open. *)
Record connection : Type := Connection {
  c_path : string;
  c_view : gmap string table;
  c_in_txn : bool
}.

(** A cursor refers to its connection by identity and holds the result of
    its last statement. *)
Record cursor : Type := Cursor {
  cur_conn : nat;
  cur_result : list row;
  cur_rowcount : Z
}.

Inductive level : Type := Debug | Info | Error.

Inductive exn : Type :=
| NameError (name : string)
| IndexError (msg : string)
| OperationalError (msg : string)
| ProgrammingError (msg : string).

(** ** Program state and the monad *)

Record state : Type := State {
  disk : gmap string fnode;        (* the file system, by path *)
  conns : gmap nat connection;     (* open connection objects *)
  rng : list nat;                  (* the numbers the random source will yield *)
  faults : list bool;              (* whether the next storage calls fail *)
  trace : list stmt;               (* statements sent to the engine, oldest first *)
  log : list (level * string)      (* Logger output, oldest first *)
}.

Definition set_disk (d : gmap string fnode) (s : state) : state :=
  State d (conns s) (rng s) (faults s) (trace s) (log s).
Definition set_conns (c : gmap nat connection) (s : state) : state :=
  State (disk s) c (rng s) (faults s) (trace s) (log s).
Definition set_rng (r : list nat) (s : state) : state :=
  State (disk s) (conns s) r (faults s) (trace s) (log s).
Definition set_faults (f : list bool) (s : state) : state :=
  State (disk s) (conns s) (rng s) f (trace s) (log s).
Definition set_trace (t : list stmt) (s : state) : state :=
  State (disk s) (conns s) (rng s) (faults s) t (log s).
Definition set_log (l : list (level * string)) (s : state) : state :=
  State (disk s) (conns s) (rng s) (faults s) (trace s) l.

Inductive outcome (A : Type) : Type :=
| Ret (a : A)
| Raise (e : exn).
Arguments Ret {A} a.
Arguments Raise {A} e.

Definition M (A : Type) : Type := state -> outcome A * state.

#[global] Instance M_ret : MRet M := fun A a s => (Ret a, s).

#[global] Instance M_bind : MBind M := fun A B f m s =>
  match m s with
  | (Ret a, s') => f a s'
  | (Raise e, s') => (Raise e, s')
  end.

Definition raise {A : Type} (e : exn) : M A := fun s => (Raise e, s).
Definition gets {A : Type} (f : state -> A) : M A := fun s => (Ret (f s), s).
Definition modify (g : state -> state) : M unit := fun s => (Ret tt, g s).

(** [try: body except: handler] with a bare [except], which catches
    everything. *)
Definition try_except {A : Type} (body : M A) (handler : exn -> M A) : M A :=
  fun s =>
    match body s with
    | (Ret a, s') => (Ret a, s')
    | (Raise e, s') => handler e s'
    end.

(** [with closing(acquire) as h: body]: [close h] runs on every exit of
    [body]; an exception of [body] is re-raised after it. *)
Definition with_closing {H A : Type}
    (acquire : M H) (close : H -> M unit) (body : H -> M A) : M A :=
  h ← acquire;
  fun s =>
    match body h s with
    | (Ret a, s') => (close h ;; mret a) s'
    | (Raise e, s') => (close h ;; raise e) s'
    end.

(** [for _ in range(0, n): body] *)
Fixpoint for_range (n : nat) (body : M unit) : M unit :=
  match n with
  | O => mret tt
  | S n' => body ;; for_range n' body
  end.

(** [for x in xs: body] *)
Fixpoint for_each {A : Type} (xs : list A) (body : A -> M unit) : M unit :=
  match xs with
  | [] => mret tt
  | x :: xs' => body x ;; for_each xs' body
  end.

(** ** Library calls *)

(** Evaluation of a free name of the module. *)
Definition global_name (name : string) : M unit :=
  if bool_decide (name ∈ module_names) then mret tt else raise (NameError name).

(** [Logger.debug], [Logger.info], [Logger.exception] *)
Definition Logger_log (lvl : level) (msg : string) : M unit :=
  modify (fun s => set_log (log s ++ [(lvl, msg)]) s).
Definition Logger_debug : string -> M unit := Logger_log Debug.
Definition Logger_info : string -> M unit := Logger_log Info.
Definition Logger_exception : string -> M unit := Logger_log Error.

(** [logging.debug]: the name [logging] is looked up first. *)
Definition logging_debug (msg : string) : M unit :=
  global_name "logging" ;; Logger_log Debug msg.

(** [os.path.join(a, b)] (posixpath) *)
Definition ends_with_sep (a : string) : bool :=
  match rev (list_ascii_of_string a) with
  | c :: _ => Ascii.eqb c "/"%char
  | [] => false
  end.

Definition os_path_join (a b : string) : string :=
  match b with
  | String c _ =>
      if Ascii.eqb c "/"%char then b
      else if (String.eqb a EmptyString || ends_with_sep a)%bool then a +:+ b
      else a +:+ "/" +:+ b
  | EmptyString =>
      if (String.eqb a EmptyString || ends_with_sep a)%bool then a else a +:+ "/"
  end.

(** [random.choice(seq)]: the element at a random index below [len(seq)]. *)
Definition next_random (r : list nat) : nat :=
  match r with
  | n :: _ => n
  | [] => O
  end.

Definition random_choice (seq : list string) : M string :=
  match seq with
  | [] => raise (IndexError "Cannot choose from an empty sequence")
  | x :: _ =>
      r ← gets rng;
      modify (set_rng (tail r)) ;;
      mret (nth (next_random r mod length seq)%nat seq x)
  end.

(** ** The sqlite3 module *)

(** Every call into the storage engine may fail for reasons outside the
    program (I/O error, lock, full disk): the next element of [faults]
    decides.  An exhausted list means that nothing fails any more. *)
Definition storage_call : M unit :=
  f ← gets faults;
  match f : list bool with
  | [] => mret tt
  | b :: rest =>
      modify (set_faults rest) ;;
      if b then raise (OperationalError "disk I/O error") else mret tt
  end.

(** [sqlite3.connect(path)]: opens the file, creating an empty database
    when the path holds nothing; the new connection object is returned by
    identity. *)
Definition connect (path : string) : M nat :=
  storage_call ;;
  d ← gets disk;
  match (d : gmap string fnode) !! path with
  | Some Blocked => raise (OperationalError "unable to open database file")
  | Some (Db tables) =>
      cs ← gets conns;
      let id := fresh (dom cs) in
      modify (set_conns (<[id := Connection path tables false]> cs)) ;;
      mret id
  | None =>
      modify (set_disk (<[path := Db ∅]> d)) ;;
      cs ← gets conns;
      let id := fresh (dom cs) in
      modify (set_conns (<[id := Connection path ∅ false]> cs)) ;;
      mret id
  end.

Definition the_conn (id : nat) : M connection :=
  cs ← gets conns;
  match (cs : gmap nat connection) !! id with
  | Some c => mret c
  | None => raise (ProgrammingError "Cannot operate on a closed database.")
  end.

Definition put_conn (id : nat) (c : connection) : M unit :=
  modify (fun s => set_conns (<[id := c]> (conns s)) s).

(** Writing a connection's view to its file: what a commit does, and what
    a statement outside a transaction does at once. *)
Definition flush (c : connection) : M unit :=
  modify (fun s => set_disk (<[c_path c := Db (c_view c)]> (disk s)) s).

(** [conn.cursor()] *)
Definition conn_cursor (conn : nat) : M cursor :=
  storage_call ;;
  _ ← the_conn conn;
  mret (Cursor conn [] (-1)).

Definition no_such_table {A : Type} (name : string) : M A :=
  raise (OperationalError ("no such table: " +:+ name)).

(** [cursor.execute(stmt)].  A [CREATE TABLE] outside a transaction is
    written at once; [INSERT] and [DELETE] open a transaction, which lasts
    until [commit]; values are stored as they are given.  The cursor is
    returned with the statement's result. *)
Definition execute (cur : cursor) (q : stmt) : M cursor :=
  modify (fun s => set_trace (trace s ++ [q]) s) ;;
  storage_call ;;
  c ← the_conn (cur_conn cur);
  match q with
  | CreateTableIfNotExists name cols =>
      match c_view c !! name with
      | Some _ => mret (Cursor (cur_conn cur) [] (-1))
      | None =>
          let c' := Connection (c_path c) (<[name := Table cols []]> (c_view c))
                               (c_in_txn c) in
          put_conn (cur_conn cur) c' ;;
          (if c_in_txn c then mret tt else flush c') ;;
          mret (Cursor (cur_conn cur) [] (-1))
      end
  | SelectCountStar name =>
      match c_view c !! name with
      | Some t =>
          mret (Cursor (cur_conn cur) [[PInt (Z.of_nat (length (rows t)))]] (-1))
      | None => no_such_table name
      end
  | SelectStar name =>
      match c_view c !! name with
      | Some t => mret (Cursor (cur_conn cur) (rows t) (-1))
      | None => no_such_table name
      end
  | InsertValues name params =>
      match c_view c !! name with
      | Some t =>
          if (length params =? length (columns t))%nat then
            put_conn (cur_conn cur)
              (Connection (c_path c)
                 (<[name := Table (columns t) (rows t ++ [params])]> (c_view c))
                 true) ;;
            mret (Cursor (cur_conn cur) [] 1)
          else
            raise (OperationalError
                     ("table " +:+ name +:+ " has " +:+ pretty (length (columns t))
                      +:+ " columns but " +:+ pretty (length params)
                      +:+ " values were supplied"))
      | None => no_such_table name
      end
  | DeleteFrom name =>
      match c_view c !! name with
      | Some t =>
          put_conn (cur_conn cur)
            (Connection (c_path c) (<[name := Table (columns t) []]> (c_view c))
               true) ;;
          mret (Cursor (cur_conn cur) [] (Z.of_nat (length (rows t))))
      | None => no_such_table name
      end
  end.

(** [cursor.fetchall()] *)
Definition fetchall (cur : cursor) : M (list row) :=
  storage_call ;;
  mret (cur_result cur).

(** [conn.commit()] *)
Definition commit (conn : nat) : M unit :=
  storage_call ;;
  c ← the_conn conn;
  if c_in_txn c then
    flush c ;;
    put_conn conn (Connection (c_path c) (c_view c) false)
  else mret tt.

(** [conn.close()]: the connection object goes away, and with it the
    changes of a transaction that was not committed.  It does not raise. *)
Definition close_conn (conn : nat) : M unit :=
  modify (fun s => set_conns (delete conn (conns s)) s).

(** [cursor.close()] *)
Definition close_cursor (cur : cursor) : M unit := mret tt.

(** ** SqliteApp *)

Definition entries_schema : list (string * string) :=
  [("text", "TEXT"); ("color", "TEXT")].

(** Lines 91-97: one round of the loop. *)
Definition seed_entry (cursor : cursor) : M unit :=
  text ← random_choice TEXTS;
  color ← random_choice COLORS;
  _ ← execute cursor (InsertValues "entries" [PStr text; PStr color]);
  Logger_debug ("Added new entry of (" +:+ text +:+ ", " +:+ color +:+ ")").

(** Lines 90-97: the loop. *)
Definition seed_entries (cursor : cursor) (n : nat) : M unit :=
  for_range n (seed_entry cursor).

(** Line 85: [len(cursor.execute("SELECT COUNT(*) FROM entries").fetchall())] *)
Definition existing_count (cursor : cursor) : M Z :=
  cur ← execute cursor (SelectCountStar "entries");
  res ← fetchall cur;
  mret (Z.of_nat (length res)).

(** Lines 82-100: the body of the [try] of [init_sqlite3]. *)
Definition init_sqlite3_try (sqlite_dir : string) : M unit :=
  with_closing (connect (os_path_join sqlite_dir DB_NAME)) close_conn (fun conn =>
    with_closing (conn_cursor conn) close_cursor (fun cursor =>
      _ ← execute cursor (CreateTableIfNotExists "entries" entries_schema);
      count ← existing_count cursor;
      Logger_debug ("Found " +:+ pretty count +:+ " existing entries") ;;
      (if negb (100 <=? count) then
         Logger_info ("Only found " +:+ pretty count +:+ " entries; adding "
                      +:+ pretty (100 - count) +:+ " more...") ;;
         seed_entries cursor (Z.to_nat (101 - count))
       else mret tt) ;;
      commit conn)).

(** [SqliteApp.init_sqlite3] (lines 73-108).  The argument is [None] or a
    string. *)
Definition init_sqlite3 (sqlite_dir : option string) : M bool :=
  let success := false in
  match sqlite_dir with
  | None =>
      logging_debug ("Bad sqlite dir " +:+ dq +:+ "None" +:+ dq +:+ "!") ;;
      mret success
  | Some dir =>
      success ← try_except
        (init_sqlite3_try dir ;;
         let success := true in
         Logger_debug ("Finished creating table " +:+ dq +:+ "entries" +:+ dq +:+ ".") ;;
         mret success)
        (fun _ =>
           Logger_exception ("Error creating table " +:+ dq +:+ "entries" +:+ dq +:+ "!") ;;
           mret success);
      Logger_info "Sqlite3 initialization complete" ;;
      mret success
  end.

(** Lines 134-137: the body of the [try] of [ingest_sqlite3]; its value is
    what the last statement assigns to [entry_list]. *)
Definition ingest_sqlite3_try (sqlite_path : string) : M (list row) :=
  with_closing (connect sqlite_path) close_conn (fun conn =>
    with_closing (conn_cursor conn) close_cursor (fun cursor =>
      lines ← execute cursor (SelectStar "entries");
      fetchall lines)).

(** [SqliteApp.ingest_sqlite3] (lines 128-141).  Closing does not raise,
    so [entry_list] is reassigned exactly when the [try] ends normally. *)
Definition ingest_sqlite3 (sqlite_path : string) : M (list row) :=
  let entry_list := [] in
  entry_list ← try_except
    (ingest_sqlite3_try sqlite_path)
    (fun _ =>
       Logger_exception ("Failed to read in db at " +:+ dq +:+ sqlite_path +:+ dq +:+ "!") ;;
       mret entry_list);
  mret entry_list.

(** Lines 146-154: the body of the [try] of [delete_sqlite_entries]. *)
Definition delete_sqlite_entries_try (sqlite_path table_name : string) : M unit :=
  with_closing (connect sqlite_path) close_conn (fun conn =>
    with_closing (conn_cursor conn) close_cursor (fun cursor =>
      let cmd := DeleteFrom table_name in
      cur ← execute cursor cmd;
      let deleted := cur_rowcount cur in
      Logger_debug ("Deleted " +:+ pretty deleted +:+ " rows.")) ;;
    commit conn).

(** [SqliteApp.delete_sqlite_entries] (lines 143-159): the handler returns
    [False] from the function, the normal exit falls through to
    [return True]. *)
Definition delete_sqlite_entries (sqlite_path table_name : string) : M bool :=
  returned ← try_except
    (delete_sqlite_entries_try sqlite_path table_name ;;
     mret None)
    (fun _ =>
       Logger_exception "Failed in delete_sqlite_entries!" ;;
       mret (Some false));
  match returned with
  | Some b => mret b
  | None => mret true
  end.

(** A client that inserts the given (text, color) pairs the way lines
    82-100 insert the seeded ones: one connection, one cursor, one INSERT
    for each pair, one commit. *)
Definition entry_row (e : string * string) : row := [PStr (fst e); PStr (snd e)].

Definition insert_entry (cursor : cursor) (e : string * string) : M unit :=
  _ ← execute cursor (InsertValues "entries" (entry_row e));
  mret tt.

Definition insert_entries (sqlite_path : string) (entries : list (string * string)) : M unit :=
  with_closing (connect sqlite_path) close_conn (fun conn =>
    with_closing (conn_cursor conn) close_cursor (fun cursor =>
      for_each entries (insert_entry cursor) ;;
      commit conn)).

(** ** Entry projection *)

(** [str.split(sep)] for a one-character separator: every occurrence
    splits, empty pieces are kept. *)
Fixpoint split (sep : ascii) (s : string) : list string :=
  match s with
  | EmptyString => [EmptyString]
  | String c s' =>
      if Ascii.eqb c sep then EmptyString :: split sep s'
      else match split sep s' with
           | piece :: pieces => String c piece :: pieces
           | [] => [String c EmptyString]
           end
  end.

(** The occurrences of a character in a string. *)
Fixpoint count_char (c : ascii) (s : string) : nat :=
  match s with
  | EmptyString => O
  | String x s' => ((if Ascii.eqb x c then 1 else 0) + count_char c s')%nat
  end.

(** The keyword arguments [load_button] builds an [EntryButton] from, and
    the attribute its constructor sets (line 44). *)
Record EntryButton : Type := MkEntryButton {
  text : string;
  background_color : list pyval;
  size_hint_y : option Z
}.

(** [SqliteApp.load_button] (lines 181-187); the debug line, which prints
    the widget's address, is left out. *)
Definition load_button (button_tuple : string * string) : EntryButton :=
  let text := fst button_tuple in
  let color := (map PStr (split "_"%char (snd button_tuple)) ++ [PInt 1])%list in
  MkEntryButton text color None.

(** ** Reading the disk *)

(** The table [name] of the database file at [path], if both exist. *)
Definition disk_table (s : state) (path name : string) : option table :=
  match disk s !! path with
  | Some (Db d) => d !! name
  | _ => None
  end.

(** The rows of that table; none when it does not exist. *)
Definition disk_rows (s : state) (path name : string) : list row :=
  match disk_table s path name with
  | Some t => rows t
  | None => []
  end.

(** A state with the given disk and sources, nothing open and nothing logged. *)
Definition boot (d : gmap string fnode) (r : list nat) (f : list bool) : state :=
  State d ∅ r f [] [].

(** ** What the statements speak of *)

(** Whether the next storage call fails. *)
Definition fails (f : list bool) : bool :=
  match f with
  | true :: _ => true
  | _ => false
  end.

(** A row the seeding can produce. *)
Definition seeded (r : row) : Prop :=
  ∃ t c, r = [PStr t; PStr c] ∧ t ∈ TEXTS ∧ c ∈ COLORS.

Definition is_insert (q : stmt) : bool :=
  match q with
  | InsertValues "entries" _ => true
  | _ => false
  end.

Definition is_delete (q : stmt) : bool :=
  match q with
  | DeleteFrom _ => true
  | _ => false
  end.

(** Equality of rows and of entries is decidable. *)
Definition row_eq_dec : ∀ x y : row, {x = y} + {x ≠ y} := decide_rel (=).
Definition entry_eq_dec : ∀ x y : string * string, {x = y} + {x ≠ y} := decide_rel (=).

(** ** Sample stores *)

Definition data_dir : string := "/data/sqlite".
Definition data_db : string := "/data/sqlite/test.db".

(** A disk whose database has an [entries] table of [n] equal rows. *)
Definition disk_with (n : nat) : gmap string fnode :=
  {[ data_db := Db {[ "entries" :=
       Table entries_schema (replicate n [PStr "Lorem Ipsum"; PStr "1_1_1"]) ]} ]}.

(** The number of rows on disk after [init_sqlite3] has run on [data_dir]. *)
Definition rows_after_init (s : state) : nat :=
  length (disk_rows (init_sqlite3 (Some data_dir) s).2 data_db "entries").

(** A state with one open connection whose view has two rows. *)
Definition counting_state : state :=
  State (disk_with 3)
    {[ 0%nat := Connection data_db
         {[ "entries" := Table entries_schema
              [[PStr "a"; PStr "b"]; [PStr "c"; PStr "d"]] ]} false ]}
    [] [] [] [].

(** The state after one clearing of a table of three rows. *)
Definition cleared_once : state :=
  (delete_sqlite_entries data_db "entries" (boot (disk_with 3) [] [])).2.

Definition two_pairs : list (string * string) :=
  [("Lorem Ipsum", "1_1_1"); ("x", "y"); ("Lorem Ipsum", "1_1_1")].

(** ** What the further statements speak of *)

(** What [random.choice(seq)] yields when the random source holds [r]. *)
Definition draw (seq : list string) (r : list nat) : string :=
  match seq with
  | x :: _ => nth (next_random r mod length seq)%nat seq x
  | [] => EmptyString
  end.

(** The rows that [k] rounds of seeding make of the random source [r]. *)
Fixpoint tape_rows (r : list nat) (k : nat) : list row :=
  match k with
  | O => []
  | S k' => [PStr (draw TEXTS r); PStr (draw COLORS (tail r))]
              :: tape_rows (tail (tail r)) k'
  end.

Definition added_entry_message (r : row) : string :=
  match r with
  | [PStr text; PStr color] => "Added new entry of (" +:+ text +:+ ", " +:+ color +:+ ")"
  | _ => EmptyString
  end.

Definition added_entries_log (new : list row) : list (level * string) :=
  map (λ r, (Debug, added_entry_message r)) new.

(** The [entries] table as CREATE TABLE IF NOT EXISTS leaves it. *)
Definition entries_or_new (s : state) (path : string) : table :=
  default (Table entries_schema []) (disk_table s path "entries").

(** What a run of lines 86 and 89 logs: the count is always 1. *)
Definition init_notices : list (level * string) :=
  [(Debug, "Found 1 existing entries");
   (Info, "Only found 1 entries; adding 99 more...")].

Definition init_finished_message : string :=
  "Finished creating table " +:+ dq +:+ "entries" +:+ dq +:+ ".".
Definition init_error_message : string :=
  "Error creating table " +:+ dq +:+ "entries" +:+ dq +:+ "!".
Definition init_complete_message : string := "Sqlite3 initialization complete".

Definition ingest_error_message (sqlite_path : string) : string :=
  "Failed to read in db at " +:+ dq +:+ sqlite_path +:+ dq +:+ "!".

Definition deleted_message (n : nat) : string :=
  "Deleted " +:+ pretty (Z.of_nat n) +:+ " rows.".

Definition delete_error_message : string := "Failed in delete_sqlite_entries!".

(** A disk with two database files; the first has a second table. *)
Definition other_db : string := "/data/other/test.db".

Definition two_files : gmap string fnode :=
  {[ data_db := Db {[ "entries" := Table entries_schema [[PStr "a"; PStr "b"]];
                      "notes" := Table [("body", "TEXT")] [[PStr "n"]] ]};
     other_db := Db {[ "entries" := Table entries_schema [[PStr "c"; PStr "d"]] ]} ]}.

(** [sep.join(pieces)] *)
Fixpoint join (sep : string) (pieces : list string) : string :=
  match pieces with
  | [] => EmptyString
  | [p] => p
  | p :: rest => p +:+ sep +:+ join sep rest
  end.

Definition pystr (v : pyval) : option string :=
  match v with
  | PStr s => Some s
  | PInt _ => None
  end.

(** The channel strings of a button's colour. *)
Definition channels (b : EntryButton) : list string := omap pystr (background_color b).

(** ** The application object and its directories *)

(** Exceptions of the application layer: those of the storage methods, and
    what path handling and the operating system raise. *)
Inductive pyexn : Type :=
| Exn (e : exn)
| OSError (msg : string)
| FileExistsError (msg : string)
| TypeError (msg : string).

(** The storage state together with the directories that exist. *)
Record world : Type := World {
  store : state;
  dirs : gset string
}.

Inductive wresult (A : Type) : Type :=
| Done (a : A)
| Throw (e : pyexn).

Arguments Done {A} a.

Arguments Throw {A} e.

Definition W (A : Type) : Type := world -> wresult A * world.

#[global] Instance W_ret : MRet W := fun A a w => (Done a, w).

#[global] Instance W_bind : MBind W := fun A B f m w =>
  match m w with
  | (Done a, w') => f a w'
  | (Throw e, w') => (Throw e, w')
  end.

Definition throw {A : Type} (e : pyexn) : W A := fun w => (Throw e, w).

(** A storage method run inside the application. *)
Definition lift {A : Type} (m : M A) : W A := fun w =>
  match m (store w) with
  | (Ret a, s') => (Done a, World s' (dirs w))
  | (Raise e, s') => (Throw (Exn e), World s' (dirs w))
  end.

(** [try: body except: handler], bare. *)
Definition wtry {A : Type} (body : W A) (handler : pyexn -> W A) : W A :=
  fun w =>
    match body w with
    | (Done a, w') => (Done a, w')
    | (Throw e, w') => handler e w'
    end.

(** Whether [path] is [dir/name] for a single, non-empty name. *)
Fixpoint drop_prefix (pre s : string) : option string :=
  match pre with
  | EmptyString => Some s
  | String c pre' =>
      match s with
      | String d s' => if Ascii.eqb c d then drop_prefix pre' s' else None
      | EmptyString => None
      end
  end.

Definition directly_inside (dir path : string) : bool :=
  match drop_prefix (dir +:+ "/") path with
  | Some name => negb (String.eqb name EmptyString) && (count_char "/" name =? 0)%nat
  | None => false
  end.

(** The directories above [p]: for [/a/b/c], [/a] and [/a/b]. *)
Fixpoint ancestors_from (acc s : string) : list string :=
  match s with
  | EmptyString => []
  | String c s' =>
      let rest := ancestors_from (acc +:+ String c EmptyString) s' in
      if (Ascii.eqb c "/" && negb (String.eqb acc EmptyString)
          && negb (ends_with_sep acc))%bool
      then acc :: rest else rest
  end.

Definition ancestors (p : string) : list string := ancestors_from EmptyString p.

(** [os.path.exists(p)]: a directory or a database file is there. *)
Definition path_exists (w : world) (p : string) : bool :=
  bool_decide (p ∈ dirs w) ||
  match disk (store w) !! p with
  | Some (Db _) => true
  | _ => false
  end.

Definition os_path_exists (p : string) : W bool := fun w => (Done (path_exists w p), w).

(** A call into the operating system; like a storage call it may fail for
    reasons outside the program, and the same source decides. *)
Definition os_call : W unit := fun w =>
  match faults (store w) with
  | [] => (Done tt, w)
  | b :: rest =>
      let w' := World (set_faults rest (store w)) (dirs w) in
      if b then (Throw (OSError "Permission denied"), w') else (Done tt, w')
  end.

(** A path that could not be opened because its directory was missing can
    be opened once the directory has been made. *)
Definition still_there (made : string) (entry : string * fnode) : bool :=
  match snd entry with
  | Blocked => negb (directly_inside made (fst entry))
  | Db _ => true
  end.

(** What [os.mkdir(p)] does once the operating system lets it. *)
Definition make_dir (p : string) : W unit := fun w =>
  if path_exists w p then (Throw (FileExistsError p), w)
  else (Done tt,
        World (set_disk (filter (fun e => still_there p e = true) (disk (store w)))
                 (store w))
              ({[ p ]} ∪ dirs w)).

(** [os.mkdir(p)] *)
Definition os_mkdir (p : string) : W unit :=
  os_call ;;
  make_dir p.

(** [try: body except FileExistsError: pass] *)
Definition pass_if_exists (body : W unit) : W unit := fun w =>
  match body w with
  | (Throw (FileExistsError _), w') => (Done tt, w')
  | other => other
  end.

Fixpoint take_while {A : Type} (f : A -> bool) (l : list A) : list A :=
  match l with
  | [] => []
  | x :: l' => if f x then x :: take_while f l' else []
  end.

(** The directories above [p] that [os.makedirs(p)] will make: going up
    from [p], those that do not exist, until one does; outermost first. *)
Definition missing_above (w : world) (p : string) : list string :=
  rev (take_while (fun a => negb (path_exists w a)) (rev (ancestors p))).

Fixpoint mkdir_each (ps : list string) : W unit :=
  match ps with
  | [] => mret tt
  | d :: rest => pass_if_exists (os_mkdir d) ;; mkdir_each rest
  end.

(** [os.makedirs(p)]: it first looks which directories above [p] are
    missing, makes them from the outermost one, passing over one that
    turns out to exist, and then makes [p]. *)
Definition os_makedirs (p : string) : W unit := fun w =>
  (mkdir_each (missing_above w p) ;; os_mkdir p) w.

(** [f'{folder}'] for [None] or a string. *)
Definition str_of_folder (folder : option string) : string :=
  match folder with
  | Some f => f
  | None => "None"
  end.

Record SqliteApp : Type := MkSqliteApp {
  user_data_dir : string;
  sqlite_dir : option string;
  initialized : bool
}.

(** [SqliteApp.init_sqlite3_dir] (lines 110-126).  [user_data_dir] is the
    path that reading [self.user_data_dir] on line 116 yields; that read
    is Kivy's and is taken to have returned. *)
Definition init_sqlite3_dir (user_data_dir : string) : W (option string) :=
  let folder := None in
  let root_folder := user_data_dir in
  let sqlite_folder := os_path_join root_folder "sqlite" in
  folder ← wtry
    (there ← os_path_exists sqlite_folder;
     (if negb (there : bool) then
        os_makedirs sqlite_folder ;;
        lift (Logger_debug ("Created folder " +:+ dq +:+ sqlite_folder +:+ dq))
      else mret tt) ;;
     let folder := Some sqlite_folder in
     mret folder)
    (fun _ =>
       lift (Logger_exception
               ("Error creating folder " +:+ dq +:+ sqlite_folder +:+ dq +:+ "!")) ;;
       mret folder);
  lift (Logger_info ("Sqlite3 folder is: " +:+ str_of_folder folder)) ;;
  mret folder.

(** [SqliteApp.__init__] (lines 58-64): the object it leaves when it
    returns.  [App.__init__] is taken to change nothing here. *)
Definition SqliteApp_init (user_data_dir : string) : W SqliteApp :=
  sqlite_dir ← init_sqlite3_dir user_data_dir;
  initialized ← lift (init_sqlite3 sqlite_dir);
  mret (MkSqliteApp user_data_dir sqlite_dir initialized).

(** [SqliteApp.on_stop] (lines 69-71); [os.path.join] refuses [None]. *)
Definition on_stop (self : SqliteApp) : W bool :=
  match sqlite_dir self with
  | None => throw (TypeError "expected str, bytes or os.PathLike object, not NoneType")
  | Some d => lift (delete_sqlite_entries (os_path_join d DB_NAME) "entries")
  end.

(** What making directories and logging leave alone. *)
Definition kept (w w' : world) : Prop :=
  dirs w ⊆ dirs w' ∧
  conns (store w') = conns (store w) ∧
  rng (store w') = rng (store w) ∧
  trace (store w') = trace (store w) ∧
  (∀ p, disk (store w') !! p = disk (store w) !! p ∨
        (disk (store w) !! p = Some Blocked ∧ disk (store w') !! p = None)) ∧
  (faults (store w) = [] → faults (store w') = []).

Definition created_message (folder : string) : string :=
  "Created folder " +:+ dq +:+ folder +:+ dq.

Definition create_error_message (folder : string) : string :=
  "Error creating folder " +:+ dq +:+ folder +:+ dq +:+ "!".

Definition folder_message (folder : option string) : string :=
  "Sqlite3 folder is: " +:+ str_of_folder folder.

(** Sample worlds: a machine on which nothing of the application exists
    yet, and one whose folder is there. *)
Definition home : string := "/home/u/.config/app".

Definition home_sqlite : string := "/home/u/.config/app/sqlite".

Definition fresh_world (f : list bool) : world :=
  World (boot ∅ [4; 0; 1; 5]%nat f) ∅.

Definition installed_world (f : list bool) : world :=
  World (boot ∅ [4; 0; 1; 5]%nat f) {[ home_sqlite ]}.

Definition no_folder_message : string :=
  "expected str, bytes or os.PathLike object, not NoneType".

(** * Proofs *)

(** ** Running a computation symbolically *)

Lemma storage_call_run (s : state) :
  storage_call s =
  (if fails (faults s) then Raise (OperationalError "disk I/O error") else Ret tt,
   set_faults (tail (faults s)) s).
Proof. destruct s as [d cs rg [|[] f] tr lg]; reflexivity. Qed.

(** Unfolds the monad and the library calls, but neither the loops nor
    the string and number functions. *)
Ltac run_step :=
  cbv beta iota zeta delta
    [mbind M_bind mret M_ret raise gets modify try_except with_closing
     connect the_conn put_conn flush conn_cursor no_such_table
     execute fetchall commit close_conn close_cursor
     Logger_log Logger_debug Logger_info Logger_exception
     set_disk set_conns set_rng set_faults set_trace set_log];
  cbn [disk conns rng faults trace log
       c_path c_view c_in_txn cur_conn cur_result cur_rowcount fst snd
       fails tail].

(** One step: unfold, read back what was just written, or split on the
    innermost value the computation is waiting for. *)
Ltac exec_once :=
  first
    [ progress run_step
    | rewrite storage_call_run
    | rewrite lookup_insert_eq
    | rewrite lookup_empty
    | match goal with
      | H : ?m !! ?k = _ |- context [?m !! ?k] => rewrite H
      end
    | match goal with
      | |- context [match ?x with _ => _ end] =>
          lazymatch x with
          | context [match _ with _ => _ end] => fail
          | _ => let E := fresh "E" in destruct x eqn:E
          end
      end ].

Ltac exec := repeat exec_once.

(** Rewrites with what is known about lookups and about the fields of
    states and connections. *)
Ltac use_eqs :=
  repeat first
    [ rewrite lookup_insert_eq
    | rewrite lookup_empty
    | match goal with
      | H : ?l = _ |- context [?l] =>
          lazymatch l with
          | _ !! _ => idtac
          | disk _ => idtac
          | trace _ => idtac
          | faults _ => idtac
          | c_path _ => idtac
          end;
          rewrite H
      end
    | progress cbn [rows columns disk trace faults] ].

Ltac proj_in H :=
  cbn [disk conns rng faults trace log c_path c_view c_in_txn
       cur_conn cur_result cur_rowcount columns rows] in H.

(** ** The random source *)

Lemma nth_mod_elem (seq : list string) (x : string) (k : nat) :
  seq ≠ [] → nth (k mod length seq)%nat seq x ∈ seq.
Proof.
  intros Hne. apply list_elem_of_In, nth_In.
  destruct seq as [|y seq]; [done|].
  apply Nat.mod_upper_bound. simpl. lia.
Qed.

Lemma random_choice_run (seq : list string) (s : state) :
  seq ≠ [] →
  ∃ x, x ∈ seq ∧ random_choice seq s = (Ret x, set_rng (tail (rng s)) s).
Proof.
  intros Hne. destruct seq as [|y seq]; [done|].
  eexists. split; [|reflexivity].
  apply nth_mod_elem. done.
Qed.

(** Any element of the sequence can be the one drawn. *)
Lemma random_choice_any (seq : list string) (i : nat) (x : string) (s : state) :
  seq !! i = Some x →
  next_random (rng s) = i →
  random_choice seq s = (Ret x, set_rng (tail (rng s)) s).
Proof.
  intros Hi Hr. destruct seq as [|y seq]; [done|].
  unfold random_choice. run_step. rewrite Hr.
  assert (Hlt : (i < length (y :: seq))%nat) by (eapply lookup_lt_Some; eauto).
  rewrite Nat.mod_small by done.
  f_equal. f_equal. apply nth_lookup_Some with (d := y) in Hi. done.
Qed.

(** ** Seeding *)

Lemma insert_not_delete (q : stmt) : is_insert q = true → is_delete q = false.
Proof. by destruct q. Qed.

Lemma TEXTS_nonempty : TEXTS ≠ [].
Proof. done. Qed.

Lemma COLORS_nonempty : COLORS ≠ [].
Proof. done. Qed.

Lemma table_eta (t : table) : Table (columns t) (rows t ++ []) = t.
Proof. destruct t. simpl. by rewrite app_nil_r. Qed.

(** One round of the loop on an open connection that has the table: it
    sends one INSERT; either that raises and nothing changes, or a palette
    row is appended to the connection's view and a transaction is open. *)
Lemma seed_entry_spec (cur : cursor) (s : state) (c : connection) (t : table) :
  conns s !! cur_conn cur = Some c →
  c_view c !! "entries" = Some t →
  ∃ r s' q,
    seed_entry cur s = (r, s') ∧ disk s' = disk s ∧
    trace s' = (trace s ++ [q])%list ∧ is_insert q = true ∧
    ((∃ e, r = Raise e ∧ conns s' = conns s) ∨
     (∃ new, r = Ret tt ∧ seeded new ∧
        conns s' = <[cur_conn cur :=
                      Connection (c_path c)
                        (<["entries" := Table (columns t) (rows t ++ [new])]> (c_view c))
                        true]> (conns s))) ∧
    (faults s = [] → length (columns t) = 2%nat → r = Ret tt ∧ faults s' = []).
Proof.
  intros Hc Ht. unfold seed_entry.
  destruct (random_choice_run TEXTS s TEXTS_nonempty) as (tx & Htx & Etx).
  destruct (random_choice_run COLORS (set_rng (tail (rng s)) s) COLORS_nonempty)
    as (co & Hco & Eco).
  destruct s as [d cs r f tr lg]. simpl in Hc.
  cbv [set_rng] in Etx, Eco; cbn [disk conns rng faults trace log] in Etx, Eco.
  run_step. rewrite Etx. run_step. rewrite Eco. run_step.
  rewrite storage_call_run. run_step.
  destruct f as [|[] f]; cbn [fails tail]; run_step.
  all: try rewrite Hc; run_step; try rewrite Ht; run_step.
  all: try destruct (length (columns t)) as [|[|[|n]]] eqn:Hlen; run_step.
  all: do 3 eexists; (split; [reflexivity|]); run_step.
  all: split; [reflexivity|]; split; [reflexivity|]; split; [reflexivity|].
  all: split; [| intros; try done ].
  all: try (left; eexists; split; reflexivity).
  all: try (right; eexists; split; [reflexivity|]; split; [|reflexivity]; exists tx, co; done).
  all: try (split; done).
Qed.

(** The loop: the INSERTs it sends, and the palette rows it appends to the
    connection's view, on any exit. *)
Lemma seed_entries_spec (cur : cursor) (n : nat) :
  ∀ (s : state) (c : connection) (t : table),
    conns s !! cur_conn cur = Some c →
    c_view c !! "entries" = Some t →
    ∃ r s' c' new tr,
      seed_entries cur n s = (r, s') ∧ disk s' = disk s ∧
      conns s' !! cur_conn cur = Some c' ∧ c_path c' = c_path c ∧
      c_view c' !! "entries" = Some (Table (columns t) (rows t ++ new)) ∧
      (new = [] → c' = c) ∧ (new ≠ [] → c_in_txn c' = true) ∧
      Forall seeded new ∧
      trace s' = (trace s ++ tr)%list ∧ Forall (λ q, is_insert q = true) tr ∧
      (r = Ret tt → length new = n) ∧
      (faults s = [] → length (columns t) = 2%nat → r = Ret tt ∧ faults s' = []).
Proof.
  induction n as [|n IH]; intros s c t Hc Ht.
  - exists (Ret tt), s, c, [], [].
    rewrite table_eta, app_nil_r. repeat split; auto; done.
  - destruct (seed_entry_spec cur s c t Hc Ht)
      as (r1 & s1 & q & E1 & Hd1 & Htr1 & Hq & Hcase & Hok1).
    unfold seed_entries in *. cbn [for_range]. unfold mbind, M_bind at 1. rewrite E1.
    destruct Hcase as [(e & -> & Hcs)|(new1 & -> & Hnew1 & Hcs)].
    + exists (Raise e), s1, c, [], [q].
      rewrite table_eta, Hcs. split_and!; auto; done.
    + set (c1 := Connection (c_path c)
                   (<["entries" := Table (columns t) (rows t ++ [new1])]> (c_view c)) true) in *.
      destruct (IH s1 c1 (Table (columns t) (rows t ++ [new1])))
        as (r & s' & c' & new & tr & E & Hd & Hc' & Hp & Hv & Hnil & Htxn & Hnew & Htr
            & Hins & Hlen & Hok).
      { rewrite Hcs. apply lookup_insert_eq. }
      { apply lookup_insert_eq. }
      exists r, s', c', (new1 :: new), (q :: tr).
      rewrite E. cbn [columns rows] in *.
      split_and!; auto.
      * congruence.
      * rewrite Hv. by rewrite <- app_assoc.
      * done.
      * intros _. destruct new as [|x new]; [rewrite Hnil; done | apply Htxn; done].
      * rewrite Htr, Htr1. by rewrite <- app_assoc.
      * intros Hr. simpl. f_equal. auto.
      * intros Hf Hl. destruct (Hok1 Hf Hl) as [_ Hf1]. apply Hok; done.
Qed.

(** ** Initialization *)

Lemma length_one_row (x : row) : Z.of_nat (length [x]) = 1%Z.
Proof. reflexivity. Qed.

(** Replaces a run of the seeding loop by what [seed_entries_spec] says of it. *)
Ltac seed_loop :=
  match goal with
  | |- context [seed_entries ?cur ?n ?S] =>
      let r := fresh "r" in let s' := fresh "s'" in let c' := fresh "c'" in
      let new := fresh "new" in let itr := fresh "itr" in
      let E := fresh "Eloop" in
      let Hd := fresh "Hdisk" in let Hc := fresh "Hconn" in let Hp := fresh "Hpath" in
      let Hv := fresh "Hview" in let Hn := fresh "Hnil" in let Ht := fresh "Htxn" in
      let Hs := fresh "Hseeded" in let Htr := fresh "Htrace" in let Hi := fresh "Hins" in
      let Hl := fresh "Hlen" in let Hok := fresh "Hok" in
      edestruct (seed_entries_spec cur n S)
        as (r & s' & c' & new & itr & E & Hd & Hc & Hp & Hv & Hn & Ht & Hs & Htr & Hi & Hl & Hok);
      [ cbn [conns cur_conn]; apply lookup_insert_eq
      | cbn [c_view]; first [ apply lookup_insert_eq | eassumption ]
      | rewrite E;
        proj_in Hd; proj_in Hc; proj_in Hp; proj_in Hv; proj_in Htr; proj_in Hok ]
  end.

Ltac init_step :=
  first [ rewrite length_one_row
        | progress change (negb (100 <=? 1)%Z) with true
        | progress change (Z.to_nat (101 - 1)) with 100%nat
        | seed_loop
        | exec_once ].

(** The body of the [try]: whatever happens, the table on disk only gains
    palette rows, 100 of them on a normal exit and none on an exception,
    and no DELETE is sent. *)
Lemma init_sqlite3_try_spec (dir : string) (s : state) :
  let p := os_path_join dir DB_NAME in
  ∃ r s' new tr,
    init_sqlite3_try dir s = (r, s') ∧
    disk_rows s' p "entries" = (disk_rows s p "entries" ++ new)%list ∧
    Forall seeded new ∧
    trace s' = (trace s ++ tr)%list ∧ Forall (λ q, is_delete q = false) tr ∧
    (r = Ret tt → length new = 100%nat ∧ is_Some (disk_table s' p "entries")) ∧
    ((∃ e, r = Raise e) → new = []).
Proof.
  intros p. destruct s as [d cs rg f tr lg].
  unfold init_sqlite3_try, existing_count, disk_rows, disk_table. fold p.
  repeat init_step.
  all: simplify_eq.
  all: try match goal with
           | H : Ret ?u = Ret () → _ |- _ => destruct u; specialize (H eq_refl)
           end.
  all: try match goal with
           | Ht : ?new ≠ [] → false = true, Hl : length ?new = 100%nat |- _ =>
               exfalso; destruct new; [done | discriminate Ht; done]
           end.
  all: try solve
    [ eexists _, _, [], _; split; [reflexivity|];
      split_and!;
      [ use_eqs; rewrite ?app_nil_r; reflexivity
      | constructor
      | use_eqs; rewrite <- ?app_assoc; first [reflexivity | symmetry; apply app_nil_r]
      | repeat first [ apply Forall_nil_2 | apply Forall_cons; split; [reflexivity|]
                     | apply Forall_app; split
                     | eapply Forall_impl; [eassumption | apply insert_not_delete ] ]
      | intros ?; discriminate
      | reflexivity ] ].
  all: try solve
    [ eexists _, _, new, _; split; [reflexivity|];
      split_and!;
      [ use_eqs; reflexivity
      | assumption
      | use_eqs; rewrite <- ?app_assoc; reflexivity
      | repeat first [ apply Forall_nil_2 | apply Forall_cons; split; [reflexivity|]
                     | apply Forall_app; split
                     | eapply Forall_impl; [eassumption | apply insert_not_delete ] ]
      | intros _; split; [assumption | use_eqs; eauto ]
      | intros [? ?]; discriminate ] ].
Qed.

(** The body of the [try] when no storage call fails. *)
Lemma init_sqlite3_try_calm (dir : string) (s : state) :
  let p := os_path_join dir DB_NAME in
  faults s = [] →
  disk s !! p ≠ Some Blocked →
  (∀ t, disk_table s p "entries" = Some t → length (columns t) = 2%nat) →
  ∃ s', init_sqlite3_try dir s = (Ret tt, s') ∧ faults s' = [].
Proof.
  intros p Hf Hnb Hcols. destruct s as [d cs rg f tr lg].
  cbn [faults disk] in Hf, Hnb. subst f.
  unfold disk_table in Hcols. cbn [disk] in Hcols.
  unfold init_sqlite3_try, existing_count. fold p.
  repeat init_step.
  all: try done.
  all: match goal with
       | Hok : [] = [] → _ → _ |- _ =>
           destruct Hok as [Hr Hf'];
           [ reflexivity | first [ reflexivity | apply Hcols; congruence ] | ]
       end.
  all: try discriminate Hr.
  all: try match goal with
           | H : fails (faults _) = true |- _ => rewrite Hf' in H; discriminate H
           end.
  all: eexists; split; [reflexivity|]; cbn [faults]; rewrite Hf'; reflexivity.
Qed.

(** The whole method on a string: it returns a boolean; rows are only
    appended, and only when it returns [True]. *)
Lemma init_sqlite3_spec (dir : string) (s : state) :
  let p := os_path_join dir DB_NAME in
  ∃ b s' new tr,
    init_sqlite3 (Some dir) s = (Ret b, s') ∧
    disk_rows s' p "entries" = (disk_rows s p "entries" ++ new)%list ∧
    Forall seeded new ∧
    trace s' = (trace s ++ tr)%list ∧ Forall (λ q, is_delete q = false) tr ∧
    (b = true → length new = 100%nat ∧ is_Some (disk_table s' p "entries")) ∧
    (b = false → new = []).
Proof.
  intros p.
  destruct (init_sqlite3_try_spec dir s)
    as (r & s1 & new & tr & E & Hrows & Hseeded & Htr & Hnodel & Hok & Hfail).
  fold p in Hrows, Hok.
  unfold init_sqlite3. run_step. rewrite E.
  destruct r as [[]|e]; run_step.
  - eexists true, _, new, tr. split; [reflexivity|].
    split_and!; auto; done.
  - eexists false, _, new, tr. split; [reflexivity|].
    split_and!; auto; try done.
    intros _. apply Hfail. eauto.
Qed.

(** With nothing failing, a path that can be opened and an [entries]
    table of two columns (if any), the method returns [True]. *)
Lemma init_sqlite3_calm (dir : string) (s : state) :
  let p := os_path_join dir DB_NAME in
  faults s = [] →
  disk s !! p ≠ Some Blocked →
  (∀ t, disk_table s p "entries" = Some t → length (columns t) = 2%nat) →
  ∃ s', init_sqlite3 (Some dir) s = (Ret true, s') ∧ faults s' = [].
Proof.
  intros p Hf Hnb Hcols.
  destruct (init_sqlite3_try_calm dir s Hf Hnb Hcols) as (s1 & E & Hf1).
  unfold init_sqlite3. run_step. rewrite E. run_step.
  eexists. split; [reflexivity|]. done.
Qed.

(** ** Listing *)

(** The body of the [try]: a normal exit yields the rows on disk; a path
    that cannot be opened or a missing table make it raise. *)
Lemma ingest_sqlite3_try_spec (path : string) (s : state) :
  ∃ r s', ingest_sqlite3_try path s = (r, s') ∧
    (∀ l, r = Ret l → l = disk_rows s path "entries") ∧
    (disk s !! path = Some Blocked → ∃ e, r = Raise e) ∧
    (disk_table s path "entries" = None → ∃ e, r = Raise e) ∧
    (faults s = [] → is_Some (disk_table s path "entries") →
     r = Ret (disk_rows s path "entries") ∧ faults s' = []).
Proof.
  destruct s as [d cs rg f tr lg].
  unfold ingest_sqlite3_try, disk_rows, disk_table. cbn [disk faults].
  exec.
  all: eexists _, _; split; [reflexivity|].
  all: split_and!; intros; simplify_eq; eauto; try done.
  all: try (by destruct H0).
Qed.


(** The method never raises; it yields the rows on disk or nothing. *)
Lemma ingest_sqlite3_spec (path : string) (s : state) :
  ∃ l s', ingest_sqlite3 path s = (Ret l, s') ∧
    (l = [] ∨ l = disk_rows s path "entries") ∧
    (faults s = [] → is_Some (disk_table s path "entries") →
     l = disk_rows s path "entries" ∧ faults s' = []).
Proof.
  destruct (ingest_sqlite3_try_spec path s) as (r & s1 & E & Hret & _ & _ & Hcalm).
  unfold ingest_sqlite3. run_step. rewrite E.
  destruct r as [l|e]; run_step.
  - eexists _, _. split; [reflexivity|]. split; [right; auto|].
    intros Hf Ht. destruct (Hcalm Hf Ht) as [Hr Hf1]. split; [congruence | done].
  - eexists _, _. split; [reflexivity|]. split; [left; done|].
    intros Hf Ht. destruct (Hcalm Hf Ht) as [Hr _]. done.
Qed.

(** ** Clearing *)

(** The body of the [try]: a normal exit means that the table was there
    and is now empty, with its columns. *)
Lemma delete_sqlite_entries_try_spec (path name : string) (s : state) :
  ∃ r s', delete_sqlite_entries_try path name s = (r, s') ∧
    (r = Ret tt →
     ∃ t, disk_table s path name = Some t ∧
          disk_table s' path name = Some (Table (columns t) [])) ∧
    (faults s = [] → is_Some (disk_table s path name) →
     r = Ret tt ∧ faults s' = []).
Proof.
  destruct s as [d cs rg f tr lg].
  unfold delete_sqlite_entries_try, disk_table. cbn [disk faults].
  exec.
  all: eexists _, _; split; [reflexivity|].
  all: split_and!; intros; simplify_eq; eauto; try done.
  all: try (by destruct H0).
  all: cbn [disk]; use_eqs; eauto.
Qed.

(** The method never raises; [True] means that the table was there and is
    now empty. *)
Lemma delete_sqlite_entries_spec (path name : string) (s : state) :
  ∃ b s', delete_sqlite_entries path name s = (Ret b, s') ∧
    (b = true →
     ∃ t, disk_table s path name = Some t ∧
          disk_table s' path name = Some (Table (columns t) [])) ∧
    (faults s = [] → is_Some (disk_table s path name) →
     b = true ∧ faults s' = []).
Proof.
  destruct (delete_sqlite_entries_try_spec path name s) as (r & s1 & E & Hret & Hcalm).
  unfold delete_sqlite_entries. run_step. rewrite E.
  destruct r as [[]|e]; run_step.
  - eexists true, _. split; [reflexivity|]. split; [auto|].
    intros Hf Ht. destruct (Hcalm Hf Ht) as [_ Hf1]. done.
  - eexists false, _. split; [reflexivity|]. split; [done|].
    intros Hf Ht. destruct (Hcalm Hf Ht) as [Hr _]. done.
Qed.

(** ** Inserting given entries *)

Lemma insert_entry_spec (cur : cursor) (e : string * string)
    (s : state) (c : connection) (t : table) :
  conns s !! cur_conn cur = Some c →
  c_view c !! "entries" = Some t →
  ∃ r s',
    insert_entry cur e s = (r, s') ∧ disk s' = disk s ∧
    ((∃ x, r = Raise x ∧ conns s' = conns s) ∨
     (r = Ret tt ∧
      conns s' = <[cur_conn cur :=
                    Connection (c_path c)
                      (<["entries" := Table (columns t) (rows t ++ [entry_row e])]> (c_view c))
                      true]> (conns s))).
Proof.
  intros Hc Ht. destruct s as [d cs rg f tr lg]. cbn [conns] in Hc.
  unfold insert_entry. exec.
  all: simplify_eq.
  all: eexists _, _; split; [reflexivity|]; split; [reflexivity|]; eauto.
Qed.

Lemma insert_loop_spec (cur : cursor) (entries : list (string * string)) :
  ∀ (s : state) (c : connection) (t : table),
    conns s !! cur_conn cur = Some c →
    c_view c !! "entries" = Some t →
    ∃ r s' c',
      for_each entries (insert_entry cur) s = (r, s') ∧ disk s' = disk s ∧
      conns s' !! cur_conn cur = Some c' ∧
      (r = Ret tt →
       c_path c' = c_path c ∧
       c_view c' !! "entries" = Some (Table (columns t) (rows t ++ map entry_row entries)) ∧
       (entries = [] → c' = c) ∧ (entries ≠ [] → c_in_txn c' = true)).
Proof.
  induction entries as [|e entries IH]; intros s c t Hc Ht.
  - exists (Ret tt), s, c. cbn [map]. rewrite table_eta. split_and!; auto; done.
  - destruct (insert_entry_spec cur e s c t Hc Ht) as (r1 & s1 & E1 & Hd1 & Hcase).
    cbn [for_each]. unfold mbind, M_bind at 1. rewrite E1.
    destruct Hcase as [(x & -> & Hcs)|(-> & Hcs)].
    + exists (Raise x), s1, c. rewrite Hcs. split_and!; auto; done.
    + edestruct (IH s1) as (r & s' & c' & E & Hd & Hc' & Hret).
      { rewrite Hcs. apply lookup_insert_eq. }
      { cbn [c_view]. apply lookup_insert_eq. }
      rewrite E. exists r, s', c'. cbn [c_path columns rows] in Hret.
      split_and!; auto; [congruence|].
      intros Hr. destruct (Hret Hr) as (Hp & Hv & Hnil & Htxn).
      split_and!; auto; try done.
      * rewrite Hv. cbn [map]. by rewrite <- app_assoc.
      * intros _. destruct entries as [|e' entries]; [rewrite Hnil; done | apply Htxn; done].
Qed.

Ltac insert_loop :=
  match goal with
  | |- context [for_each ?entries (insert_entry ?cur) ?S] =>
      let r := fresh "r" in let s' := fresh "s'" in let c' := fresh "c'" in
      let E := fresh "Eloop" in let Hd := fresh "Hdisk" in
      let Hc := fresh "Hconn" in let Hret := fresh "Hret" in
      edestruct (insert_loop_spec cur entries S) as (r & s' & c' & E & Hd & Hc & Hret);
      [ cbn [conns cur_conn]; apply lookup_insert_eq
      | cbn [c_view]; eassumption
      | rewrite E; proj_in Hd; proj_in Hc; proj_in Hret ]
  end.

Lemma insert_entries_spec (path : string) (entries : list (string * string))
    (s : state) (t : table) :
  disk_table s path "entries" = Some t →
  ∃ r s',
    insert_entries path entries s = (r, s') ∧
    (r = Ret tt →
     disk_table s' path "entries" =
       Some (Table (columns t) (rows t ++ map entry_row entries))).
Proof.
  intros Ht. destruct s as [d cs rg f tr lg].
  unfold disk_table in *. cbn [disk] in Ht.
  unfold insert_entries.
  destruct (d !! path) as [[|d0]|] eqn:Ed; try done.
  repeat first [ insert_loop | exec_once ].
  all: eexists _, _; split; [reflexivity|]; intros Hr; try discriminate Hr.
  all: destruct Hret as (Hp & Hv & Hnil & Htxn); [by destruct a|].
  all: cbn [disk]; use_eqs.
  all: try reflexivity.
  all: destruct entries; [cbn [map]; by rewrite table_eta | by discriminate Htxn].
Qed.

(** ** The statements of the seeding loop *)

Lemma seed_entry_trace (cur : cursor) (s : state) :
  ∃ q, trace (seed_entry cur s).2 = (trace s ++ [q])%list ∧ is_insert q = true.
Proof.
  unfold seed_entry.
  destruct (random_choice_run TEXTS s TEXTS_nonempty) as (tx & Htx & Etx).
  destruct (random_choice_run COLORS (set_rng (tail (rng s)) s) COLORS_nonempty)
    as (co & Hco & Eco).
  destruct s as [d cs r f tr lg].
  cbv [set_rng] in Etx, Eco; cbn [disk conns rng faults trace log] in Etx, Eco.
  run_step. rewrite Etx. run_step. rewrite Eco.
  exec.
  all: eexists; split; reflexivity.
Qed.

Lemma seed_entries_trace (cur : cursor) (n : nat) (s : state) :
  ∃ tr, trace (seed_entries cur n s).2 = (trace s ++ tr)%list ∧
        Forall (λ q, is_insert q = true) tr.
Proof.
  revert s. induction n as [|n IH]; intros s.
  - exists []. by rewrite app_nil_r.
  - unfold seed_entries in *. cbn [for_range]. unfold mbind, M_bind at 1.
    destruct (seed_entry_trace cur s) as (q & Hq & Hins).
    destruct (seed_entry cur s) as [[[]|e] s1]; cbn [snd] in Hq.
    + destruct (IH s1) as (tr & Htr & Hall).
      exists (q :: tr). rewrite Htr, Hq, <- app_assoc. split; [done|]. by constructor.
    + exists [q]. cbn [snd]. split; [done|]. by repeat constructor.
Qed.

(** ** Splitting *)

Lemma split_length (sep : ascii) (s : string) :
  length (split sep s) = S (count_char sep s).
Proof.
  induction s as [|c s IH]; [done|].
  cbn [split count_char].
  destruct (Ascii.eqb c sep).
  - cbn [length]. by rewrite IH.
  - destruct (split sep s) as [|piece pieces]; [done|]. exact IH.
Qed.

(** * The claims *)

(** C1. Starting from no rows, [init_sqlite3] would leave 101 rows, and
    starting from 100 rows it would insert nothing.  The code does
    neither: run on an empty disk it succeeds and leaves 100 rows; run on
    a table that already has 100 rows it succeeds and leaves 200. *)
Theorem init_sqlite3_rows_from_0_and_100 :
  (init_sqlite3 (Some data_dir) (boot ∅ [] [])).1 = Ret true ∧
  rows_after_init (boot ∅ [] []) = 100%nat ∧
  length (disk_rows (boot (disk_with 100) [] []) data_db "entries") = 100%nat ∧
  (init_sqlite3 (Some data_dir) (boot (disk_with 100) [] [])).1 = Ret true ∧
  rows_after_init (boot (disk_with 100) [] []) = 200%nat.
Proof. vm_compute. done. Qed.

(** C2. Whatever the table holds, the count of line 85 is the length of
    the one-row answer to COUNT, that is 1; so a run of [init_sqlite3] that
    succeeds has appended exactly 101 - 1 = 100 rows to the rows that were
    there, and with nothing failing it does succeed, whatever their
    number. *)
Theorem existing_count_is_one :
  (∀ cur s n s', existing_count cur s = (Ret n, s') → n = 1%Z) ∧
  (∀ cur s c t,
     conns s !! cur_conn cur = Some c → c_view c !! "entries" = Some t →
     faults s = [] →
     (existing_count cur s).1 = Ret 1%Z) ∧
  (∀ dir s s',
     init_sqlite3 (Some dir) s = (Ret true, s') →
     ∃ new, length new = 100%nat ∧
       disk_rows s' (os_path_join dir DB_NAME) "entries"
       = (disk_rows s (os_path_join dir DB_NAME) "entries" ++ new)%list) ∧
  (∀ dir s,
     faults s = [] →
     disk s !! os_path_join dir DB_NAME ≠ Some Blocked →
     (∀ t, disk_table s (os_path_join dir DB_NAME) "entries" = Some t →
           length (columns t) = 2%nat) →
     ∃ s', init_sqlite3 (Some dir) s = (Ret true, s') ∧
       length (disk_rows s' (os_path_join dir DB_NAME) "entries")
       = (length (disk_rows s (os_path_join dir DB_NAME) "entries") + 100)%nat).
Proof.
  split_and!.
  - intros cur [d cs rg f tr lg] n s'. unfold existing_count. exec.
    all: intros; simplify_eq; done.
  - intros cur [d cs rg f tr lg] c t Hc Ht Hf.
    cbn [conns faults] in Hc, Hf. subst f.
    unfold existing_count. exec; done.
  - intros dir s s' E.
    destruct (init_sqlite3_spec dir s) as (b & s1 & new & tr & E1 & Hrows & _ & _ & _ & Hok & _).
    rewrite E in E1. simplify_eq. destruct Hok as [Hlen _]; [done|]. eauto.
  - intros dir s Hf Hnb Hcols.
    destruct (init_sqlite3_calm dir s Hf Hnb Hcols) as (s' & E & _).
    destruct (init_sqlite3_spec dir s) as (b & s1 & new & tr & E1 & Hrows & _ & _ & _ & Hok & _).
    rewrite E in E1. simplify_eq. destruct Hok as [Hlen _]; [done|].
    exists s1. split; [done|]. rewrite Hrows, length_app. lia.
Qed.

(** The count on a view of two rows, and a run on a table of three rows. *)
Lemma existing_count_is_one_witness :
  (fst (existing_count (Cursor 0 [] (-1)) counting_state) = Ret 1%Z) ∧
  (∃ new, length new = 100%nat ∧
     disk_rows (init_sqlite3 (Some data_dir) (boot (disk_with 3) [] [])).2
       (os_path_join data_dir DB_NAME) "entries"
     = (disk_rows (boot (disk_with 3) [] []) (os_path_join data_dir DB_NAME) "entries"
        ++ new)%list) ∧
  (∃ s', init_sqlite3 (Some data_dir) (boot (disk_with 3) [] []) = (Ret true, s') ∧
     length (disk_rows s' (os_path_join data_dir DB_NAME) "entries")
     = (length (disk_rows (boot (disk_with 3) [] []) (os_path_join data_dir DB_NAME)
                  "entries") + 100)%nat).
Proof.
  destruct existing_count_is_one as (Hcount & Hcounted & Hsucc & Hcalm).
  split_and!.
  - destruct (existing_count (Cursor 0 [] (-1)) counting_state) as [[n|e] s'] eqn:E.
    + cbn [fst]. f_equal. apply (Hcount _ _ _ _ E).
    + rewrite <- (Hcounted (Cursor 0 [] (-1)) counting_state
                    (Connection data_db
                       {[ "entries" := Table entries_schema
                            [[PStr "a"; PStr "b"]; [PStr "c"; PStr "d"]] ]} false)
                    (Table entries_schema [[PStr "a"; PStr "b"]; [PStr "c"; PStr "d"]])).
      * by rewrite E.
      * vm_compute. reflexivity.
      * vm_compute. reflexivity.
      * reflexivity.
  - apply Hsucc. vm_compute. reflexivity.
  - apply Hcalm.
    + reflexivity.
    + vm_compute. discriminate.
    + vm_compute. intros t Ht. injection Ht as <-. reflexivity.
Defined.

(** C3, as amended. On the entry ("Lorem Ipsum", "1_0.0_0.0"),
    [load_button] splits the colour on the underscore into the three
    strings "1", "0.0", "0.0" and appends the integer 1: the text
    "Lorem Ipsum" goes with the tuple ("1", "0.0", "0.0", 1). *)
Theorem load_button_lorem_ipsum :
  split "_" "1_0.0_0.0" = ["1"; "0.0"; "0.0"] ∧
  load_button ("Lorem Ipsum", "1_0.0_0.0")
  = MkEntryButton "Lorem Ipsum" [PStr "1"; PStr "0.0"; PStr "0.0"; PInt 1] None.
Proof. split; reflexivity. Qed.

(** C3 as stated fails: the fourth element is not the string "1". *)
Lemma load_button_fourth_not_a_string :
  (text (load_button ("Lorem Ipsum", "1_0.0_0.0")),
   background_color (load_button ("Lorem Ipsum", "1_0.0_0.0")))
  ≠ ("Lorem Ipsum", [PStr "1"; PStr "0.0"; PStr "0.0"; PStr "1"]).
Proof. vm_compute. intros H. discriminate H. Qed.

(** C4. [init_sqlite3] would return a boolean on every input and let no
    exception out.  On [None] the code raises [NameError]: line 79 names
    [logging], which the module never binds, outside of the [try].  On
    every string it does return a boolean: [True] when the body of the
    [try] ends normally, [False] when it raises, as it does when the path
    cannot be opened. *)
Theorem init_sqlite3_none_raises :
  (∀ s, init_sqlite3 None s = (Raise (NameError "logging"), s)) ∧
  (∀ dir s, ∃ b, (init_sqlite3 (Some dir) s).1 = Ret b) ∧
  (∀ dir s s1, init_sqlite3_try dir s = (Ret tt, s1) →
               (init_sqlite3 (Some dir) s).1 = Ret true) ∧
  (∀ dir s e s1, init_sqlite3_try dir s = (Raise e, s1) →
                 (init_sqlite3 (Some dir) s).1 = Ret false) ∧
  (∀ dir s, disk s !! os_path_join dir DB_NAME = Some Blocked →
            (init_sqlite3 (Some dir) s).1 = Ret false).
Proof.
  split_and!.
  - intros s. reflexivity.
  - intros dir s.
    destruct (init_sqlite3_spec dir s) as (b & s' & new & tr & E & _).
    exists b. by rewrite E.
  - intros dir s s1 E. unfold init_sqlite3. run_step. by rewrite E.
  - intros dir s e s1 E. unfold init_sqlite3. run_step. by rewrite E.
  - intros dir [d cs rg f tr lg] Hb. cbn [disk] in Hb.
    unfold init_sqlite3, init_sqlite3_try. exec; reflexivity.
Qed.

(** A path that cannot be opened, a failing CREATE TABLE, and a run without
    failure. *)
Lemma init_sqlite3_none_raises_witness :
  (init_sqlite3 (Some data_dir) (boot {[ data_db := Blocked ]} [] [])).1 = Ret false ∧
  (init_sqlite3 (Some data_dir) (boot ∅ [] [false; false; true])).1 = Ret false ∧
  (init_sqlite3 (Some data_dir) (boot ∅ [] [false; false])).1 = Ret true.
Proof.
  destruct init_sqlite3_none_raises as (_ & _ & Htrue & Hfalse & Hblocked).
  split_and!.
  - apply Hblocked. vm_compute. reflexivity.
  - eapply Hfalse. vm_compute. reflexivity.
  - eapply Htrue. vm_compute. reflexivity.
Defined.

(** C5. [ingest_sqlite3] never raises, and on a failure it returns the
    empty list: whenever the body of its [try] raises, and in particular
    when the path cannot be opened or has no [entries] table. *)
Theorem ingest_sqlite3_failure_is_empty :
  (∀ path s, ∃ l, (ingest_sqlite3 path s).1 = Ret l) ∧
  (∀ path s e s1, ingest_sqlite3_try path s = (Raise e, s1) →
                  (ingest_sqlite3 path s).1 = Ret []) ∧
  (∀ path s, disk s !! path = Some Blocked → (ingest_sqlite3 path s).1 = Ret []) ∧
  (∀ path s, disk_table s path "entries" = None → (ingest_sqlite3 path s).1 = Ret []).
Proof.
  assert (Hraise : ∀ path s e s1, ingest_sqlite3_try path s = (Raise e, s1) →
                                  (ingest_sqlite3 path s).1 = Ret []).
  { intros path s e s1 E. unfold ingest_sqlite3. run_step. rewrite E. reflexivity. }
  split_and!.
  - intros path s. destruct (ingest_sqlite3_spec path s) as (l & s' & E & _).
    exists l. by rewrite E.
  - exact Hraise.
  - intros path s Hb.
    destruct (ingest_sqlite3_try_spec path s) as (r & s1 & E & _ & Hblocked & _).
    destruct (Hblocked Hb) as [e ->]. eauto.
  - intros path s Hnone.
    destruct (ingest_sqlite3_try_spec path s) as (r & s1 & E & _ & _ & Hmissing & _).
    destruct (Hmissing Hnone) as [e ->]. eauto.
Qed.

(** A failing storage call, a path that cannot be opened, a missing file. *)
Lemma ingest_sqlite3_failure_is_empty_witness :
  (ingest_sqlite3 data_db (boot (disk_with 2) [] [true])).1 = Ret [] ∧
  (ingest_sqlite3 data_db (boot {[ data_db := Blocked ]} [] [])).1 = Ret [] ∧
  (ingest_sqlite3 data_db (boot ∅ [] [])).1 = Ret [].
Proof.
  destruct ingest_sqlite3_failure_is_empty as (_ & Hraise & Hblocked & Hmissing).
  split_and!.
  - eapply Hraise. vm_compute. reflexivity.
  - apply Hblocked. vm_compute. reflexivity.
  - apply Hmissing. vm_compute. reflexivity.
Defined.

(** C6. [delete_sqlite_entries] always returns a boolean.  After it has
    returned [True] on the [entries] table, the table is still there with
    its columns and has no rows, [ingest_sqlite3] returns the empty list,
    and a second call (with no storage failure) returns [True] again and
    leaves the table as it is, with no rows. *)
Theorem delete_sqlite_entries_total_idempotent :
  (∀ path name s, ∃ b, (delete_sqlite_entries path name s).1 = Ret b) ∧
  (∀ path s s1,
     delete_sqlite_entries path "entries" s = (Ret true, s1) →
     (∃ t, disk_table s path "entries" = Some t ∧
           disk_table s1 path "entries" = Some (Table (columns t) [])) ∧
     disk_rows s1 path "entries" = [] ∧
     (ingest_sqlite3 path s1).1 = Ret [] ∧
     (faults s1 = [] →
      ∃ s2, delete_sqlite_entries path "entries" s1 = (Ret true, s2) ∧
            disk_rows s2 path "entries" = [] ∧
            disk_table s2 path "entries" = disk_table s1 path "entries")).
Proof.
  split.
  - intros path name s.
    destruct (delete_sqlite_entries_spec path name s) as (b & s' & E & _).
    exists b. by rewrite E.
  - intros path s s1 E.
    destruct (delete_sqlite_entries_spec path "entries" s) as (b & s' & E1 & Hok & _).
    rewrite E in E1. simplify_eq.
    destruct Hok as (t & Ht & Ht1); [done|].
    assert (Hrows : disk_rows s' path "entries" = []).
    { unfold disk_rows. by rewrite Ht1. }
    split_and!; eauto.
    + destruct (ingest_sqlite3_spec path s') as (l & s2 & E2 & [->| ->] & _);
        rewrite E2; cbn [fst]; congruence.
    + intros Hf.
      destruct (delete_sqlite_entries_spec path "entries" s')
        as (b2 & s2 & E2 & Hok2 & Hcalm2).
      destruct Hcalm2 as [-> _]; [done | by rewrite Ht1 |].
      destruct Hok2 as (t' & Ht' & Ht2); [done|].
      exists s2. split; [done|].
      rewrite Ht1 in Ht'. injection Ht' as <-. cbn [columns] in Ht2.
      split; [unfold disk_rows; by rewrite Ht2 | congruence].
Qed.

(** Clearing a table of three rows, twice. *)
Lemma delete_sqlite_entries_total_idempotent_witness :
  disk_rows cleared_once data_db "entries" = [] ∧
  (ingest_sqlite3 data_db cleared_once).1 = Ret [] ∧
  ∃ s2, delete_sqlite_entries data_db "entries" cleared_once = (Ret true, s2) ∧
        disk_rows s2 data_db "entries" = [] ∧
        disk_table s2 data_db "entries" = disk_table cleared_once data_db "entries".
Proof.
  destruct delete_sqlite_entries_total_idempotent as (_ & Hclear).
  destruct (Hclear data_db (boot (disk_with 3) [] []) cleared_once)
    as (_ & Hrows & Hlist & Hagain).
  - vm_compute. reflexivity.
  - split_and!; [exact Hrows | exact Hlist | apply Hagain; vm_compute; reflexivity].
Defined.

(** C7. Seeding only adds: the rows on disk before [init_sqlite3] are a
    prefix of the rows after it, so each of them is still there, however
    the call ends; [init_sqlite3] sends no DELETE, and the seeding loop
    sends nothing but INSERTs into [entries]. *)
Theorem seed_top_up_is_additive :
  (∀ dir s,
     disk_rows s (os_path_join dir DB_NAME) "entries"
     `prefix_of`
     disk_rows (init_sqlite3 (Some dir) s).2 (os_path_join dir DB_NAME) "entries") ∧
  (∀ dir s r,
     r ∈ disk_rows s (os_path_join dir DB_NAME) "entries" →
     r ∈ disk_rows (init_sqlite3 (Some dir) s).2 (os_path_join dir DB_NAME) "entries") ∧
  (∀ dir s, ∃ tr,
     trace (init_sqlite3 (Some dir) s).2 = (trace s ++ tr)%list ∧
     Forall (λ q, is_delete q = false) tr) ∧
  (∀ cur n s, ∃ tr,
     trace (seed_entries cur n s).2 = (trace s ++ tr)%list ∧
     Forall (λ q, is_insert q = true) tr).
Proof.
  assert (Hprefix : ∀ dir s,
    disk_rows s (os_path_join dir DB_NAME) "entries"
    `prefix_of`
    disk_rows (init_sqlite3 (Some dir) s).2 (os_path_join dir DB_NAME) "entries").
  { intros dir s.
    destruct (init_sqlite3_spec dir s) as (b & s' & new & tr & E & Hrows & _).
    rewrite E. cbn [snd]. rewrite Hrows. by apply prefix_app_r. }
  split_and!.
  - exact Hprefix.
  - intros dir s r Hr. destruct (Hprefix dir s) as [new ->].
    apply elem_of_app. by left.
  - intros dir s.
    destruct (init_sqlite3_spec dir s) as (b & s' & new & tr & E & _ & _ & Htr & Hnodel & _).
    rewrite E. eauto.
  - intros cur n s. apply seed_entries_trace.
Qed.

(** A row of a table of three rows is still there after [init_sqlite3]. *)
Lemma seed_top_up_is_additive_witness :
  [PStr "Lorem Ipsum"; PStr "1_1_1"]
  ∈ disk_rows (init_sqlite3 (Some data_dir) (boot (disk_with 3) [] [])).2
      (os_path_join data_dir DB_NAME) "entries".
Proof.
  destruct seed_top_up_is_additive as (_ & Hkept & _).
  apply Hkept. vm_compute. apply list_elem_of_here.
Defined.

(** C8. Every row [init_sqlite3] adds has a text of [TEXTS] and a colour
    of [COLORS]; the two are drawn one after the other from the random
    source, so that any text can come with any colour; and after
    [init_sqlite3] on a store without rows every listed entry is such a
    row. *)
Theorem seeded_rows_are_from_the_palettes :
  (∀ dir s, ∃ new,
     disk_rows (init_sqlite3 (Some dir) s).2 (os_path_join dir DB_NAME) "entries"
     = (disk_rows s (os_path_join dir DB_NAME) "entries" ++ new)%list ∧
     Forall seeded new) ∧
  (∀ i j t c rest s,
     TEXTS !! i = Some t → COLORS !! j = Some c → rng s = i :: j :: rest →
     random_choice TEXTS s = (Ret t, set_rng (j :: rest) s) ∧
     random_choice COLORS (set_rng (j :: rest) s) = (Ret c, set_rng rest s)) ∧
  (∀ dir s l,
     disk_rows s (os_path_join dir DB_NAME) "entries" = [] →
     (ingest_sqlite3 (os_path_join dir DB_NAME) (init_sqlite3 (Some dir) s).2).1 = Ret l →
     Forall seeded l).
Proof.
  assert (Hnew : ∀ dir s, ∃ new,
     disk_rows (init_sqlite3 (Some dir) s).2 (os_path_join dir DB_NAME) "entries"
     = (disk_rows s (os_path_join dir DB_NAME) "entries" ++ new)%list ∧
     Forall seeded new).
  { intros dir s.
    destruct (init_sqlite3_spec dir s) as (b & s' & new & tr & E & Hrows & Hseeded & _).
    rewrite E. eauto. }
  split_and!.
  - exact Hnew.
  - intros i j t c rest s Hi Hj Hr. split.
    + rewrite (random_choice_any TEXTS i t s Hi) by (by rewrite Hr).
      by rewrite Hr.
    + rewrite (random_choice_any COLORS j c _ Hj) by (by destruct s).
      by destruct s.
  - intros dir s l Hfresh Hl.
    destruct (Hnew dir s) as (new & Hrows & Hseeded).
    rewrite Hfresh in Hrows. cbn [app] in Hrows.
    destruct (ingest_sqlite3_spec (os_path_join dir DB_NAME) (init_sqlite3 (Some dir) s).2)
      as (l' & s2 & E & Hcase & _).
    rewrite E in Hl. cbn [fst] in Hl. injection Hl as ->.
    destruct Hcase as [->| ->]; [constructor | by rewrite Hrows].
Qed.

(** The draws 4 and 0, and a run on an empty disk. *)
Lemma seeded_rows_are_from_the_palettes_witness :
  (random_choice TEXTS (boot ∅ [4; 0]%nat [])
   = (Ret "Lorem Ipsum", set_rng [0%nat] (boot ∅ [4; 0]%nat [])) ∧
   random_choice COLORS (set_rng [0%nat] (boot ∅ [4; 0]%nat []))
   = (Ret "1_0.0_0.0", set_rng [] (boot ∅ [4; 0]%nat []))) ∧
  ∃ l, (ingest_sqlite3 (os_path_join data_dir DB_NAME)
          (init_sqlite3 (Some data_dir) (boot ∅ [4; 0; 1; 5]%nat [])).2).1 = Ret l ∧
       Forall seeded l ∧ length l = 100%nat.
Proof.
  destruct seeded_rows_are_from_the_palettes as (_ & Hany & Hfresh).
  split.
  - apply (Hany 4%nat 0%nat); reflexivity.
  - eexists. split; [vm_compute; reflexivity|]. split; [|reflexivity].
    apply (Hfresh data_dir (boot ∅ [4; 0; 1; 5]%nat [])).
    + vm_compute. reflexivity.
    + vm_compute. reflexivity.
Defined.

(** Distinct pairs make distinct rows. *)
Lemma entry_row_inj (e1 e2 : string * string) : entry_row e1 = entry_row e2 → e1 = e2.
Proof. destruct e1, e2. unfold entry_row. cbn. congruence. Qed.

(** C9. After any sequence of inserts into the [entries] table, committed,
    [ingest_sqlite3] (not failing) returns the rows that were there
    followed by the inserted ones: each inserted pair occurs in the list
    as many times as it was inserted, on top of its occurrences
    before. *)
Theorem listing_reflects_inserts (path : string) (entries : list (string * string))
    (s s1 : state) (t : table) :
  disk_table s path "entries" = Some t →
  insert_entries path entries s = (Ret tt, s1) →
  faults s1 = [] →
  ∃ l, (ingest_sqlite3 path s1).1 = Ret l ∧
    l = (rows t ++ map entry_row entries)%list ∧
    l ≡ₚ (map entry_row entries ++ rows t)%list ∧
    ∀ e, count_occ row_eq_dec l (entry_row e)
         = (count_occ entry_eq_dec entries e + count_occ row_eq_dec (rows t) (entry_row e))%nat.
Proof.
  intros Ht E Hf.
  destruct (insert_entries_spec path entries s t Ht) as (r & s' & E1 & Hok).
  rewrite E in E1. simplify_eq. specialize (Hok eq_refl).
  destruct (ingest_sqlite3_spec path s') as (l & s2 & E2 & _ & Hcalm).
  destruct Hcalm as [Hl _]; [done | by rewrite Hok |].
  unfold disk_rows in Hl. rewrite Hok in Hl. cbn [rows] in Hl.
  exists l. rewrite E2. split; [done|]. split; [done|]. split.
  - rewrite Hl. apply Permutation_app_comm.
  - intros e. rewrite Hl, count_occ_app.
    rewrite <- (count_occ_map entry_row entry_eq_dec row_eq_dec entry_row_inj).
    lia.
Qed.

(** Three inserts, two of them equal, into an empty table. *)
Lemma listing_reflects_inserts_witness :
  ∃ l, (ingest_sqlite3 data_db
          (insert_entries data_db two_pairs (boot (disk_with 0) [] [])).2).1 = Ret l ∧
    l = ([] ++ map entry_row two_pairs)%list ∧
    l ≡ₚ (map entry_row two_pairs ++ [])%list ∧
    ∀ e, count_occ row_eq_dec l (entry_row e)
         = (count_occ entry_eq_dec two_pairs e + count_occ row_eq_dec [] (entry_row e))%nat.
Proof.
  apply (listing_reflects_inserts data_db two_pairs (boot (disk_with 0) [] []) _
           (Table entries_schema [])).
  - vm_compute. reflexivity.
  - vm_compute. reflexivity.
  - vm_compute. reflexivity.
Defined.

(** C10. The colour tuple [load_button] builds has one element more than
    the colour string has pieces between underscores, that is two more
    than it has underscores, and its last element is the integer 1: it is
    a 4-tuple exactly when there are two underscores, and a 2-tuple when
    there is none. *)
Theorem load_button_color_length (e : string * string) :
  length (background_color (load_button e)) = S (length (split "_" (snd e))) ∧
  length (background_color (load_button e)) = (count_char "_" (snd e) + 2)%nat ∧
  last (background_color (load_button e)) = Some (PInt 1) ∧
  (length (background_color (load_button e)) = 4%nat ↔ count_char "_" (snd e) = 2%nat) ∧
  (count_char "_" (snd e) = 0%nat → length (background_color (load_button e)) = 2%nat).
Proof.
  unfold load_button. cbn [background_color].
  rewrite length_app, length_map, split_length. cbn [length].
  split_and!; try lia.
  apply last_snoc.
Qed.

(** A colour without underscore. *)
Lemma load_button_color_length_witness :
  length (background_color (load_button ("x", "red"))) = 2%nat.
Proof.
  destruct (load_button_color_length ("x", "red")) as (_ & _ & _ & _ & Hnone).
  apply Hnone. reflexivity.
Defined.

(** * Further properties *)

(** ** The effect of each method on the whole state *)

Lemma random_choice_draw (seq : list string) (s : state) :
  seq ≠ [] → random_choice seq s = (Ret (draw seq (rng s)), set_rng (tail (rng s)) s).
Proof. intros Hne. destruct seq as [|y seq]; [done|]. reflexivity. Qed.

Lemma conn_eta (c : connection) : Connection (c_path c) (c_view c) (c_in_txn c) = c.
Proof. by destruct c. Qed.

Lemma seed_entry_effect (cur : cursor) (s : state) (c : connection) (t : table) :
  conns s !! cur_conn cur = Some c →
  c_view c !! "entries" = Some t →
  let new := [PStr (draw TEXTS (rng s)); PStr (draw COLORS (tail (rng s)))] in
  ∃ r s',
    seed_entry cur s = (r, s') ∧ disk s' = disk s ∧
    rng s' = tail (tail (rng s)) ∧
    trace s' = (trace s ++ [InsertValues "entries" new])%list ∧
    ((∃ e, r = Raise e ∧ conns s' = conns s ∧ log s' = log s) ∨
     (r = Ret tt ∧
      conns s' = <[cur_conn cur :=
                    Connection (c_path c)
                      (<["entries" := Table (columns t) (rows t ++ [new])]> (c_view c))
                      true]> (conns s) ∧
      log s' = (log s ++ [(Debug, added_entry_message new)])%list)).
Proof.
  intros Hc Ht new. unfold seed_entry.
  pose proof (random_choice_draw TEXTS s TEXTS_nonempty) as Etx.
  pose proof (random_choice_draw COLORS (set_rng (tail (rng s)) s) COLORS_nonempty) as Eco.
  destruct s as [d cs r f tr lg]. cbn [conns rng] in *.
  cbv [set_rng] in Etx, Eco; cbn [disk conns rng faults trace log] in Etx, Eco.
  run_step. rewrite Etx. run_step. rewrite Eco.
  exec.
  all: eexists _, _; split; [reflexivity|]; cbn [disk rng trace conns log].
  all: split_and!; try reflexivity.
  all: first [ left; eexists; split_and!; reflexivity
             | right; split_and!; reflexivity ].
Qed.

Lemma tape_rows_seeded (r : list nat) (k : nat) : Forall seeded (tape_rows r k).
Proof.
  revert r. induction k as [|k IH]; intros r; cbn [tape_rows]; constructor; [|apply IH].
  eexists _, _. split; [reflexivity|]. split; apply nth_mod_elem; done.
Qed.

Lemma tape_rows_length (r : list nat) (k : nat) : length (tape_rows r k) = k.
Proof. revert r. induction k as [|k IH]; intros r; cbn; auto. Qed.

Lemma seed_entries_effect (cur : cursor) (n : nat) :
  ∀ (s : state) (c : connection) (t : table),
    conns s !! cur_conn cur = Some c →
    c_view c !! "entries" = Some t →
    ∃ r s' k tr,
      seed_entries cur n s = (r, s') ∧ disk s' = disk s ∧
      conns s' = <[cur_conn cur :=
                    Connection (c_path c)
                      (<["entries" := Table (columns t) (rows t ++ tape_rows (rng s) k)]>
                         (c_view c))
                      (c_in_txn c || (0 <? k)%nat)]> (conns s) ∧
      trace s' = (trace s ++ tr)%list ∧ Forall (λ q, is_insert q = true) tr ∧
      log s' = (log s ++ added_entries_log (tape_rows (rng s) k))%list ∧
      (r = Ret tt → k = n ∧ rng s' = drop (2 * n) (rng s) ∧ length tr = n).
Proof.
  induction n as [|n IH]; intros s c t Hc Ht.
  - exists (Ret tt), s, O, []. cbn [tape_rows added_entries_log map].
    rewrite table_eta, !app_nil_r, orb_false_r, (insert_id _ _ _ Ht), conn_eta,
      (insert_id _ _ _ Hc).
    split_and!; auto.
  - destruct (seed_entry_effect cur s c t Hc Ht)
      as (r1 & s1 & E1 & Hd1 & Hrng1 & Htr1 & Hcase).
    unfold seed_entries in *. cbn [for_range]. unfold mbind, M_bind at 1. rewrite E1.
    destruct Hcase as [(e & -> & Hcs & Hlg)|(-> & Hcs & Hlg)].
    + exists (Raise e), s1, O, [InsertValues "entries"
               [PStr (draw TEXTS (rng s)); PStr (draw COLORS (tail (rng s)))]].
      cbn [tape_rows added_entries_log map].
      rewrite table_eta, !app_nil_r, orb_false_r, (insert_id _ _ _ Ht), conn_eta,
        Hcs, (insert_id _ _ _ Hc).
      split_and!; auto; done.
    + edestruct (IH s1) as (r & s' & k & tr & E & Hd & Hcs' & Htr & Hins & Hlg' & Hok).
      { rewrite Hcs. apply lookup_insert_eq. }
      { cbn [c_view]. apply lookup_insert_eq. }
      exists r, s', (S k), (InsertValues "entries"
               [PStr (draw TEXTS (rng s)); PStr (draw COLORS (tail (rng s)))] :: tr).
      rewrite E. cbn [c_path c_view c_in_txn columns rows] in Hcs'.
      rewrite Hcs, !insert_insert_eq, Hrng1, <- app_assoc in Hcs'.
      split_and!.
      * reflexivity.
      * congruence.
      * rewrite Hcs'. cbn [tape_rows orb Nat.ltb Nat.leb app]. by rewrite orb_true_r.
      * rewrite Htr, Htr1. by rewrite <- app_assoc.
      * by constructor.
      * rewrite Hlg', Hlg, Hrng1. cbn [tape_rows added_entries_log map].
        by rewrite <- app_assoc.
      * intros Hr. destruct (Hok Hr) as (-> & Hrng & Hlen).
        split_and!; auto.
        -- rewrite Hrng, Hrng1. replace (2 * S n)%nat with (S (S (2 * n))) by lia.
           destruct (rng s) as [|a [|b l]]; cbn [tail drop]; by rewrite ?drop_nil.
        -- cbn. by rewrite Hlen.
Qed.

Ltac seed_loop_effect :=
  match goal with
  | |- context [seed_entries ?cur ?n ?S] =>
      let r := fresh "r" in let s' := fresh "s'" in let k := fresh "k" in
      let itr := fresh "itr" in
      let E := fresh "Eloop" in
      let Hd := fresh "Hdisk" in let Hc := fresh "Hconns" in
      let Htr := fresh "Htrace" in let Hi := fresh "Hins" in
      let Hlg := fresh "Hlog" in let Hok := fresh "Hok" in
      edestruct (seed_entries_effect cur n S)
        as (r & s' & k & itr & E & Hd & Hc & Htr & Hi & Hlg & Hok);
      [ cbn [conns cur_conn]; apply lookup_insert_eq
      | cbn [c_view]; first [ apply lookup_insert_eq | eassumption ]
      | rewrite E;
        proj_in Hd; proj_in Hc; proj_in Htr; proj_in Hlg; proj_in Hok;
        cbn [orb] in Hc; rewrite ?insert_insert_eq in Hc ]
  end.

Ltac init_step_effect :=
  first [ rewrite length_one_row
        | progress change (negb (100 <=? 1)%Z) with true
        | progress change (Z.to_nat (101 - 1)) with 100%nat
        | seed_loop_effect
        | match goal with
          | H : conns ?s = _ |- context [conns ?s] => rewrite H
          end
        | exec_once ].

Lemma fresh_conn_gone (cs : gmap nat connection) : delete (fresh (dom cs)) cs = cs.
Proof. apply delete_id, not_elem_of_dom, is_fresh. Qed.

Lemma init_sqlite3_try_effect (dir : string) (s : state) :
  let p := os_path_join dir DB_NAME in
  let T0 := entries_or_new s p in
  ∃ r s',
    init_sqlite3_try dir s = (r, s') ∧
    conns s' = conns s ∧
    (∀ path', path' ≠ p → disk s' !! path' = disk s !! path') ∧
    (∀ name', name' ≠ "entries" → disk_table s' p name' = disk_table s p name') ∧
    match r with
    | Ret _ =>
        disk_table s' p "entries"
        = Some (Table (columns T0) (rows T0 ++ tape_rows (rng s) 100)) ∧
        rng s' = drop 200 (rng s) ∧
        log s' = (log s ++ init_notices ++ added_entries_log (tape_rows (rng s) 100))%list
    | Raise _ =>
        (disk_table s' p "entries" = disk_table s p "entries" ∨
         disk_table s' p "entries" = Some T0) ∧
        ∃ lg', log s' = (log s ++ lg')%list
    end.
Proof.
  intros p T0. subst T0. destruct s as [d cs rg f tr lg].
  unfold init_sqlite3_try, existing_count, entries_or_new, disk_table. fold p.
  cbn [disk conns rng log].
  repeat init_step_effect.
  all: eexists _, _; split; [reflexivity|]; cbn [conns disk rng log].
  all: split; [rewrite ?delete_insert_eq, ?fresh_conn_gone; reflexivity|].
  all: split; [intros path' Hne; use_eqs; rewrite ?lookup_insert_ne by done; reflexivity|].
  all: split; [intros name' Hne; use_eqs; rewrite ?lookup_insert_ne by done;
               use_eqs; rewrite ?lookup_insert_ne by done; try reflexivity|].
  all: try match goal with
           | H : Ret ?u = Ret () → _ |- _ =>
               destruct u; destruct (H eq_refl) as (-> & Hrng & Hlen)
           end.
  all: try discriminate.
  all: use_eqs; cbn [default columns rows].
  all: try solve
    [ split; [ first [left; reflexivity | right; reflexivity]
             | first [ by exists []; rewrite app_nil_r
                     | eexists; rewrite <- ?app_assoc; reflexivity
                     | eexists; rewrite Hlog, <- ?app_assoc; reflexivity ] ] ].
  all: split_and!; [reflexivity | exact Hrng | rewrite Hlog, <- !app_assoc; reflexivity].
Qed.

Lemma init_sqlite3_effect (dir : string) (s : state) :
  let p := os_path_join dir DB_NAME in
  let T0 := entries_or_new s p in
  ∃ b s',
    init_sqlite3 (Some dir) s = (Ret b, s') ∧
    conns s' = conns s ∧
    (∀ path', path' ≠ p → disk s' !! path' = disk s !! path') ∧
    (∀ name', name' ≠ "entries" → disk_table s' p name' = disk_table s p name') ∧
    if b then
      disk_table s' p "entries"
      = Some (Table (columns T0) (rows T0 ++ tape_rows (rng s) 100)) ∧
      rng s' = drop 200 (rng s) ∧
      log s' = (log s ++ init_notices ++ added_entries_log (tape_rows (rng s) 100)
                ++ [(Debug, init_finished_message); (Info, init_complete_message)])%list
    else
      (disk_table s' p "entries" = disk_table s p "entries" ∨
       disk_table s' p "entries" = Some T0) ∧
      ∃ lg', log s' = (log s ++ lg'
                       ++ [(Error, init_error_message); (Info, init_complete_message)])%list.
Proof.
  intros p T0.
  destruct (init_sqlite3_try_effect dir s) as (r & s1 & E & Hconns & Hfiles & Htables & Hcase).
  fold p in Hfiles, Htables, Hcase. fold T0 in Hcase.
  unfold init_sqlite3. run_step. rewrite E.
  destruct r as [[]|e]; run_step.
  - exists true. eexists. split; [reflexivity|].
    destruct Hcase as (Ht & Hrng & Hlog).
    split_and!; try done.
    cbn [log]. rewrite Hlog, <- !app_assoc. reflexivity.
  - exists false. eexists. split; [reflexivity|].
    destruct Hcase as (Ht & lg' & Hlog).
    split_and!; try done.
    exists lg'. cbn [log]. rewrite Hlog, <- !app_assoc. reflexivity.
Qed.

Lemma ingest_sqlite3_effect (path : string) (s : state) :
  ∃ l s',
    ingest_sqlite3 path s = (Ret l, s') ∧
    conns s' = conns s ∧ rng s' = rng s ∧
    (∀ path' name', disk_table s' path' name' = disk_table s path' name') ∧
    (∀ path', disk s' !! path' = Some Blocked ↔ disk s !! path' = Some Blocked) ∧
    (trace s' = trace s ∨ trace s' = (trace s ++ [SelectStar "entries"])%list) ∧
    ((log s' = log s ∧ is_Some (disk_table s path "entries") ∧
      l = disk_rows s path "entries") ∨
     (log s' = (log s ++ [(Error, ingest_error_message path)])%list ∧ l = [])).
Proof.
  destruct s as [d cs rg f tr lg].
  unfold ingest_sqlite3, ingest_sqlite3_try, disk_rows, disk_table, ingest_error_message.
  cbn [disk conns rng log trace].
  exec.
  all: eexists _, _; split; [reflexivity|]; cbn [conns disk rng log trace].
  all: split; [rewrite ?delete_insert_eq, ?fresh_conn_gone; reflexivity|].
  all: split; [reflexivity|].
  all: split; [intros path' name';
               first [ reflexivity
                     | destruct (decide (path = path')) as [<-|Hne];
                       [use_eqs; by rewrite ?lookup_empty
                       |by rewrite lookup_insert_ne by done] ]|].
  all: split; [intros path';
               first [ reflexivity
                     | destruct (decide (path = path')) as [<-|Hne];
                       [use_eqs; split; intros; discriminate
                       |by rewrite lookup_insert_ne by done] ]|].
  all: split; [first [left; reflexivity | right; reflexivity]|].
  all: first [ left; split_and!; [reflexivity | use_eqs; eauto | use_eqs; reflexivity]
             | right; split; reflexivity ].
Qed.

Lemma delete_sqlite_entries_effect (path name : string) (s : state) :
  ∃ b s',
    delete_sqlite_entries path name s = (Ret b, s') ∧
    conns s' = conns s ∧ rng s' = rng s ∧
    (∀ path' name', (path' ≠ path ∨ name' ≠ name) →
       disk_table s' path' name' = disk_table s path' name') ∧
    (∀ path', disk s' !! path' = Some Blocked ↔ disk s !! path' = Some Blocked) ∧
    (trace s' = trace s ∨ trace s' = (trace s ++ [DeleteFrom name])%list) ∧
    if b then
      ∃ t, disk_table s path name = Some t ∧
           disk_table s' path name = Some (Table (columns t) []) ∧
           log s' = (log s ++ [(Debug, deleted_message (length (rows t)))])%list
    else
      disk_table s' path name = disk_table s path name ∧
      ∃ lg, log s' = (log s ++ lg ++ [(Error, delete_error_message)])%list.
Proof.
  destruct s as [d cs rg f tr lg].
  unfold delete_sqlite_entries, delete_sqlite_entries_try, disk_table,
    delete_error_message, deleted_message.
  cbn [disk conns rng log trace].
  exec.
  all: eexists _, _; split; [reflexivity|]; cbn [conns disk rng log trace].
  all: split; [rewrite ?delete_insert_eq, ?fresh_conn_gone; reflexivity|].
  all: split; [reflexivity|].
  all: split; [intros path' name' Hne;
               first [ reflexivity
                     | destruct (decide (path = path')) as [<-|Hp];
                       [use_eqs; rewrite ?lookup_empty;
                        first [ reflexivity
                              | destruct Hne as [Hne|Hne]; [done|];
                                by rewrite lookup_insert_ne by done ]
                       |by rewrite lookup_insert_ne by done] ]|].
  all: split; [intros path';
               first [ reflexivity
                     | destruct (decide (path = path')) as [<-|Hne];
                       [use_eqs; split; intros; discriminate
                       |by rewrite lookup_insert_ne by done] ]|].
  all: split; [first [left; reflexivity | right; reflexivity]|].
  all: use_eqs.
  all: try (split; [reflexivity|]).
  all: try solve [by exists [] | eexists [_]; by rewrite <- app_assoc].
  eexists. split_and!; reflexivity.
Qed.

(** ** The storage methods *)

(** X1. None of the three storage methods leaves a connection open: the
    open connections after [init_sqlite3] on a folder, after
    [ingest_sqlite3] and after [delete_sqlite_entries] are those before,
    whether the method succeeded or took its [except] branch. *)
Theorem connections_are_released (dir path name : string) (s : state) :
  conns (init_sqlite3 (Some dir) s).2 = conns s ∧
  conns (ingest_sqlite3 path s).2 = conns s ∧
  conns (delete_sqlite_entries path name s).2 = conns s.
Proof.
  split_and!.
  - destruct (init_sqlite3_effect dir s) as (b & s' & E & Hc & _). by rewrite E.
  - destruct (ingest_sqlite3_effect path s) as (l & s' & E & Hc & _). by rewrite E.
  - destruct (delete_sqlite_entries_effect path name s) as (b & s' & E & Hc & _).
    by rewrite E.
Qed.

Lemma entries_or_new_rows (s : state) (p : string) :
  rows (entries_or_new s p) = disk_rows s p "entries".
Proof. unfold entries_or_new, disk_rows. by destruct (disk_table s p "entries"). Qed.

(** X2. [init_sqlite3] on a folder adds all of its rows or none: it
    returns [True] with exactly 100 rows appended to those of [entries],
    or [False] with the rows on disk as they were, wherever the failure
    struck. *)
Theorem init_sqlite3_all_or_nothing (dir : string) (s : state) :
  let p := os_path_join dir DB_NAME in
  let after := init_sqlite3 (Some dir) s in
  (after.1 = Ret true ∧
   ∃ new, length new = 100%nat ∧
          disk_rows after.2 p "entries" = (disk_rows s p "entries" ++ new)%list) ∨
  (after.1 = Ret false ∧
   disk_rows after.2 p "entries" = disk_rows s p "entries").
Proof.
  intros p after. subst after.
  destruct (init_sqlite3_effect dir s) as (b & s' & E & _ & _ & _ & Hcase).
  fold p in Hcase. rewrite E. cbn [fst snd].
  destruct b.
  - left. split; [done|]. destruct Hcase as (Ht & _).
    exists (tape_rows (rng s) 100). split; [apply tape_rows_length|].
    unfold disk_rows at 1. rewrite Ht. cbn [rows]. by rewrite entries_or_new_rows.
  - right. split; [done|]. destruct Hcase as ([Ht|Ht] & _).
    + unfold disk_rows. by rewrite Ht.
    + unfold disk_rows at 1. rewrite Ht. apply entries_or_new_rows.
Qed.

(** X3. [init_sqlite3] touches nothing but the [entries] table of its own
    database: every other file and every other table of the database is
    as before, and an [entries] table that was there keeps its columns. *)
Theorem init_sqlite3_touches_only_entries (dir : string) (s : state) :
  let p := os_path_join dir DB_NAME in
  let s' := (init_sqlite3 (Some dir) s).2 in
  (∀ path', path' ≠ p → disk s' !! path' = disk s !! path') ∧
  (∀ name', name' ≠ "entries" → disk_table s' p name' = disk_table s p name') ∧
  (∀ t, disk_table s p "entries" = Some t →
        ∃ t', disk_table s' p "entries" = Some t' ∧ columns t' = columns t).
Proof.
  intros p s'. subst s'.
  destruct (init_sqlite3_effect dir s) as (b & s' & E & _ & Hfiles & Htables & Hcase).
  fold p in Hfiles, Htables, Hcase. rewrite E. cbn [snd].
  split_and!; [done | done |].
  intros t Ht. unfold entries_or_new in Hcase. rewrite Ht in Hcase. cbn [default] in Hcase.
  destruct b.
  - destruct Hcase as (Ht' & _). eauto.
  - destruct Hcase as ([Ht'|Ht'] & _); rewrite Ht'; eauto.
Qed.

Lemma init_sqlite3_touches_only_entries_witness :
  let s := boot two_files [] [] in
  let s' := (init_sqlite3 (Some data_dir) s).2 in
  disk s' !! other_db = disk s !! other_db ∧
  disk_table s' (os_path_join data_dir DB_NAME) "notes"
  = disk_table s (os_path_join data_dir DB_NAME) "notes" ∧
  ∃ t', disk_table s' (os_path_join data_dir DB_NAME) "entries" = Some t' ∧
        columns t' = columns (Table entries_schema [[PStr "a"; PStr "b"]]).
Proof.
  intros s s'.
  destruct (init_sqlite3_touches_only_entries data_dir s) as (Hfiles & Htables & Hcols).
  split_and!.
  - apply Hfiles. vm_compute. discriminate.
  - apply Htables. discriminate.
  - apply Hcols. vm_compute. reflexivity.
Defined.



(** X5. [ingest_sqlite3] only reads: every table of every file is as
    before, a path that could not be opened still cannot and conversely,
    the random source is untouched, and the only statement it runs is the
    one [SELECT]. *)
Theorem ingest_sqlite3_is_read_only (path : string) (s : state) :
  let s' := (ingest_sqlite3 path s).2 in
  (∀ path' name', disk_table s' path' name' = disk_table s path' name') ∧
  (∀ path', disk s' !! path' = Some Blocked ↔ disk s !! path' = Some Blocked) ∧
  rng s' = rng s ∧
  (trace s' = trace s ∨ trace s' = (trace s ++ [SelectStar "entries"])%list).
Proof.
  intros s'. subst s'.
  destruct (ingest_sqlite3_effect path s)
    as (l & s' & E & _ & Hrng & Htables & Hblocked & Htrace & _).
  rewrite E. cbn [snd]. done.
Qed.

(** X6. The log tells a failed listing from an empty table:
    [ingest_sqlite3] either logs nothing and returns the rows of an
    existing [entries] table, or logs the one error line naming the path
    and returns the empty list. *)
Theorem ingest_sqlite3_log_tells_failure (path : string) (s : state) :
  let after := ingest_sqlite3 path s in
  (log after.2 = log s ∧
   is_Some (disk_table s path "entries") ∧
   after.1 = Ret (disk_rows s path "entries")) ∨
  (log after.2 = (log s ++ [(Error, ingest_error_message path)])%list ∧
   after.1 = Ret []).
Proof.
  intros after. subst after.
  destruct (ingest_sqlite3_effect path s) as (l & s' & E & _ & _ & _ & _ & _ & Hcase).
  rewrite E. cbn [fst snd].
  destruct Hcase as [(Hlog & Ht & ->)|(Hlog & ->)]; [left | right]; done.
Qed.





Lemma disk_table_not_blocked (s : state) (p name : string) :
  is_Some (disk_table s p name) → disk s !! p ≠ Some Blocked.
Proof. unfold disk_table. intros [t Ht] Hb. rewrite Hb in Ht. done. Qed.

(** A run that succeeds, with nothing failing: the table afterwards. *)
Lemma init_sqlite3_calm_table (dir : string) (s : state) :
  let p := os_path_join dir DB_NAME in
  faults s = [] →
  disk s !! p ≠ Some Blocked →
  (∀ t, disk_table s p "entries" = Some t → length (columns t) = 2%nat) →
  ∃ s', init_sqlite3 (Some dir) s = (Ret true, s') ∧ faults s' = [] ∧
        rng s' = drop 200 (rng s) ∧
        disk_table s' p "entries"
        = Some (Table (columns (entries_or_new s p))
                  (disk_rows s p "entries" ++ tape_rows (rng s) 100)) ∧
        length (columns (entries_or_new s p)) = 2%nat.
Proof.
  intros p Hf Hnb Hcols.
  destruct (init_sqlite3_calm dir s Hf Hnb Hcols) as (s' & E & Hf').
  destruct (init_sqlite3_effect dir s) as (b & s1 & E1 & _ & _ & _ & Hcase).
  rewrite E in E1. simplify_eq. fold p in Hcase. destruct Hcase as (Ht & Hrng & _).
  exists s1. rewrite E. rewrite entries_or_new_rows in Ht. split_and!; try done.
  unfold entries_or_new. destruct (disk_table s p "entries") as [t|] eqn:Et; cbn; auto.
Qed.

Lemma ingest_sqlite3_calm (path : string) (s : state) (t : table) :
  faults s = [] → disk_table s path "entries" = Some t →
  ∃ s', ingest_sqlite3 path s = (Ret (rows t), s') ∧ faults s' = [] ∧
        rng s' = rng s ∧
        (∀ name, disk_table s' path name = disk_table s path name).
Proof.
  intros Hf Ht.
  destruct (ingest_sqlite3_spec path s) as (l & s' & E & _ & Hcalm).
  destruct Hcalm as [-> Hf']; [done | by rewrite Ht |].
  destruct (ingest_sqlite3_effect path s) as (l1 & s1 & E1 & _ & Hrng & Htables & _).
  rewrite E in E1. simplify_eq.
  exists s1. rewrite E. unfold disk_rows. rewrite Ht. split_and!; auto.
Qed.

Lemma delete_sqlite_entries_calm (path name : string) (s : state) (t : table) :
  faults s = [] → disk_table s path name = Some t →
  ∃ s', delete_sqlite_entries path name s = (Ret true, s') ∧ faults s' = [] ∧
        rng s' = rng s ∧
        disk_table s' path name = Some (Table (columns t) []).
Proof.
  intros Hf Ht.
  destruct (delete_sqlite_entries_spec path name s) as (b & s' & E & _ & Hcalm).
  destruct Hcalm as [-> Hf']; [done | by rewrite Ht |].
  destruct (delete_sqlite_entries_effect path name s)
    as (b1 & s1 & E1 & _ & Hrng & _ & _ & _ & Hcase).
  rewrite E in E1. simplify_eq. destruct Hcase as (t' & Ht' & Ht1 & _).
  exists s1. rewrite E. split_and!; auto. congruence.
Qed.

(** X9. The storage methods in the order the application calls them,
    with nothing failing, the database within reach and an [entries]
    table that is already there having two columns: the first [init_sqlite3] succeeds, the listing
    is the old rows followed by the 100 drawn, the clearing succeeds, the
    next listing is empty, and a second [init_sqlite3] followed by a
    listing gives exactly the 100 rows drawn from the rest of the random
    source. *)
Theorem two_runs_of_the_store (dir : string) (s : state) :
  let p := os_path_join dir DB_NAME in
  faults s = [] →
  disk s !! p ≠ Some Blocked →
  (∀ t, disk_table s p "entries" = Some t → length (columns t) = 2%nat) →
  let started := init_sqlite3 (Some dir) s in
  let listed := ingest_sqlite3 p started.2 in
  let stopped := delete_sqlite_entries p "entries" listed.2 in
  let listed_after := ingest_sqlite3 p stopped.2 in
  let restarted := init_sqlite3 (Some dir) listed_after.2 in
  let relisted := ingest_sqlite3 p restarted.2 in
  started.1 = Ret true ∧
  listed.1 = Ret (disk_rows s p "entries" ++ tape_rows (rng s) 100)%list ∧
  stopped.1 = Ret true ∧
  listed_after.1 = Ret [] ∧
  restarted.1 = Ret true ∧
  relisted.1 = Ret (tape_rows (drop 200 (rng s)) 100).
Proof.
  intros p Hf Hnb Hcols started listed stopped listed_after restarted relisted.
  subst started listed stopped listed_after restarted relisted.
  destruct (init_sqlite3_calm_table dir s Hf Hnb Hcols)
    as (s1 & E1 & Hf1 & Hrng1 & Ht1 & Hlen).
  fold p in Ht1, Hlen. rewrite E1. cbn [fst snd].
  destruct (ingest_sqlite3_calm p s1 _ Hf1 Ht1) as (s2 & E2 & Hf2 & Hrng2 & Hsame2).
  rewrite E2. cbn [fst snd rows].
  rewrite <- (Hsame2 "entries") in Ht1.
  destruct (delete_sqlite_entries_calm p "entries" s2 _ Hf2 Ht1)
    as (s3 & E3 & Hf3 & Hrng3 & Ht3).
  rewrite E3. cbn [fst snd columns] in *.
  destruct (ingest_sqlite3_calm p s3 _ Hf3 Ht3) as (s4 & E4 & Hf4 & Hrng4 & Hsame4).
  rewrite E4. cbn [fst snd rows].
  rewrite <- (Hsame4 "entries") in Ht3.
  destruct (init_sqlite3_calm_table dir s4 Hf4) as (s5 & E5 & Hf5 & Hrng5 & Ht5 & _).
  { apply (disk_table_not_blocked s4 _ "entries"). fold p. rewrite Ht3. eauto. }
  { fold p. intros t Ht. rewrite Ht3 in Ht. injection Ht as <-. exact Hlen. }
  fold p in Ht5. rewrite E5. cbn [fst snd].
  destruct (ingest_sqlite3_calm p s5 _ Hf5 Ht5) as (s6 & E6 & _).
  rewrite E6. cbn [fst rows].
  unfold disk_rows. rewrite Ht3. cbn [rows app].
  split_and!; try done. do 2 f_equal. congruence.
Qed.

Lemma two_runs_of_the_store_witness :
  let s := boot ∅ [4; 0; 1; 5]%nat [] in
  let p := os_path_join data_dir DB_NAME in
  let started := init_sqlite3 (Some data_dir) s in
  let listed := ingest_sqlite3 p started.2 in
  let stopped := delete_sqlite_entries p "entries" listed.2 in
  let listed_after := ingest_sqlite3 p stopped.2 in
  let restarted := init_sqlite3 (Some data_dir) listed_after.2 in
  let relisted := ingest_sqlite3 p restarted.2 in
  started.1 = Ret true ∧
  listed.1 = Ret (disk_rows s p "entries" ++ tape_rows (rng s) 100)%list ∧
  stopped.1 = Ret true ∧
  listed_after.1 = Ret [] ∧
  restarted.1 = Ret true ∧
  relisted.1 = Ret (tape_rows (drop 200 (rng s)) 100).
Proof.
  apply (two_runs_of_the_store data_dir (boot ∅ [4; 0; 1; 5]%nat [])).
  - reflexivity.
  - vm_compute. discriminate.
  - vm_compute. discriminate.
Defined.

(** X10. What [init_sqlite3] logs on a folder: on [True] the two count
    notices, one line per row added, in order, the finishing line and the
    completion line; on [False] the last two lines are the error line and
    the completion line.  The completion line is logged either way. *)
Theorem init_sqlite3_log (dir : string) (s : state) :
  let after := init_sqlite3 (Some dir) s in
  (after.1 = Ret true ∧
   log after.2
   = (log s ++ init_notices ++ added_entries_log (tape_rows (rng s) 100)
      ++ [(Debug, init_finished_message); (Info, init_complete_message)])%list) ∨
  (after.1 = Ret false ∧
   ∃ lg, log after.2
         = (log s ++ lg ++ [(Error, init_error_message);
                            (Info, init_complete_message)])%list).
Proof.
  intros after. subst after.
  destruct (init_sqlite3_effect dir s) as (b & s' & E & _ & _ & _ & Hcase).
  rewrite E. cbn [fst snd].
  destruct b; [left | right]; (split; [done|]); tauto.
Qed.

Lemma tail_tail_drop {A} (l : list A) (k : nat) :
  drop k (tail (tail l)) = drop (S (S k)) l.
Proof. destruct l as [|a [|b l]]; cbn [tail drop]; by rewrite ?drop_nil. Qed.

Lemma tape_rows_lookup (r : list nat) (n k : nat) :
  (k < n)%nat →
  tape_rows r n !! k
  = Some [PStr (draw TEXTS (drop (2 * k) r)); PStr (draw COLORS (drop (2 * k + 1) r))].
Proof.
  revert r k. induction n as [|n IH]; intros r k Hk; [lia|].
  destruct k as [|k]; cbn [tape_rows lookup list_lookup].
  - cbn [Nat.mul Nat.add drop]. by destruct r.
  - change (tape_rows (tail (tail r)) n !! k
            = Some [PStr (draw TEXTS (drop (2 * S k) r));
                    PStr (draw COLORS (drop (2 * S k + 1) r))]).
    rewrite IH by lia. rewrite !tail_tail_drop.
    replace (S (S (2 * k))) with (2 * S k)%nat by lia.
    replace (S (S (2 * k + 1))) with (2 * S k + 1)%nat by lia. done.
Qed.

(** X11. The rows [init_sqlite3] adds are those the random source
    dictates: row [k] takes its text from draw [2k] and its colour from
    draw [2k+1], and a successful run uses up exactly 200 draws. *)
Theorem seeding_follows_the_random_source (dir : string) (s s' : state) :
  let p := os_path_join dir DB_NAME in
  init_sqlite3 (Some dir) s = (Ret true, s') →
  disk_rows s' p "entries" = (disk_rows s p "entries" ++ tape_rows (rng s) 100)%list ∧
  rng s' = drop 200 (rng s) ∧
  ∀ k, (k < 100)%nat →
    tape_rows (rng s) 100 !! k
    = Some [PStr (draw TEXTS (drop (2 * k) (rng s)));
            PStr (draw COLORS (drop (2 * k + 1) (rng s)))].
Proof.
  intros p E.
  destruct (init_sqlite3_effect dir s) as (b & s1 & E1 & _ & _ & _ & Hcase).
  rewrite E in E1. simplify_eq. fold p in Hcase. destruct Hcase as (Ht & Hrng & _).
  split_and!; [| done | intros k Hk; by apply tape_rows_lookup].
  unfold disk_rows at 1. rewrite Ht. cbn [rows]. by rewrite entries_or_new_rows.
Qed.

Lemma seeding_follows_the_random_source_witness :
  let s := boot ∅ [4; 0; 1; 5]%nat [] in
  let s' := (init_sqlite3 (Some data_dir) s).2 in
  disk_rows s' (os_path_join data_dir DB_NAME) "entries"
  = (disk_rows s (os_path_join data_dir DB_NAME) "entries"
     ++ tape_rows (rng s) 100)%list ∧
  rng s' = drop 200 (rng s) ∧
  ∀ k, (k < 100)%nat →
    tape_rows (rng s) 100 !! k
    = Some [PStr (draw TEXTS (drop (2 * k) (rng s)));
            PStr (draw COLORS (drop (2 * k + 1) (rng s)))].
Proof.
  intros s s'.
  apply (seeding_follows_the_random_source data_dir s s').
  vm_compute. reflexivity.
Defined.

(** ** Buttons *)

Lemma split_nonempty (sep : ascii) (s : string) : split sep s ≠ [].
Proof.
  intros H. pose proof (split_length sep s) as Hlen. rewrite H in Hlen. done.
Qed.

Lemma join_cons (sep p : string) (ps : list string) :
  ps ≠ [] → join sep (p :: ps) = p +:+ sep +:+ join sep ps.
Proof. by destruct ps. Qed.

Lemma join_split (sep : ascii) (s : string) :
  join (String sep EmptyString) (split sep s) = s.
Proof.
  induction s as [|c s IH]; [done|].
  pose proof (split_nonempty sep s) as Hne.
  cbn [split]. destruct (Ascii.eqb_spec c sep) as [->|Hc].
  - rewrite join_cons by done. by rewrite IH.
  - destruct (split sep s) as [|p ps]; [done|].
    destruct ps as [|q ps].
    + cbn [join] in *. by rewrite IH.
    + rewrite join_cons in IH by done. rewrite join_cons by done.
      rewrite <- IH. reflexivity.
Qed.

Lemma omap_pystr_strings (l : list string) (v : pyval) :
  pystr v = None → omap pystr (map PStr l ++ [v])%list = l.
Proof.
  intros Hv. induction l as [|x l IH]; cbn; [by rewrite Hv|]. by rewrite IH.
Qed.

Lemma channels_load_button (e : string * string) :
  channels (load_button e) = split "_" (snd e).
Proof. unfold channels, load_button. cbn [background_color]. by apply omap_pystr_strings. Qed.

(** X12. [load_button] loses nothing of its entry: the text of the
    button and its colour channels joined by underscores give the entry
    back, so two entries with the same button are the same entry. *)
Theorem load_button_round_trip :
  (∀ e, (text (load_button e), join "_" (channels (load_button e))) = e) ∧
  (∀ e1 e2, load_button e1 = load_button e2 → e1 = e2).
Proof.
  assert (Hback : ∀ e, (text (load_button e), join "_" (channels (load_button e))) = e).
  { intros [t c]. rewrite channels_load_button. cbn [snd].
    change "_" with (String "_"%char EmptyString) at 1. by rewrite join_split. }
  split; [exact Hback|].
  intros e1 e2 H. rewrite <- (Hback e1), <- (Hback e2). by rewrite H.
Qed.

Lemma load_button_round_trip_witness :
  ("Lorem Ipsum", "1_0.0_0.0") = ("Lorem Ipsum", "1_0.0_0.0").
Proof.
  destruct load_button_round_trip as (_ & Hinj).
  apply Hinj. reflexivity.
Defined.

Lemma split_three (s : string) :
  count_char "_" s = 2%nat → ∃ r g b, split "_" s = [r; g; b].
Proof.
  intros H. pose proof (split_length "_" s) as Hlen. rewrite H in Hlen.
  destruct (split "_" s) as [|r [|g [|b [|x l]]]]; try done. eauto.
Qed.

Lemma COLORS_two_underscores (c : string) : c ∈ COLORS → count_char "_" c = 2%nat.
Proof.
  intros Hc. assert (H : Forall (λ c, count_char "_" c = 2%nat) COLORS).
  { repeat constructor. }
  rewrite Forall_forall in H. by apply H.
Qed.

(** X13. Every row [init_sqlite3] can write loads as a button with
    four colour components: three strings and the integer 1. *)
Theorem seeded_entries_load_as_rgba (t c : string) :
  seeded [PStr t; PStr c] →
  ∃ r g b, load_button (t, c) = MkEntryButton t [PStr r; PStr g; PStr b; PInt 1] None.
Proof.
  intros (t' & c' & Heq & _ & Hc). injection Heq as -> ->.
  destruct (split_three c' (COLORS_two_underscores c' Hc)) as (r & g & b & Hs).
  exists r, g, b. unfold load_button. cbn [fst snd]. by rewrite Hs.
Qed.

Lemma seeded_entries_load_as_rgba_witness :
  ∃ r g b, load_button ("That's My Bag", "0.5_0.5_0.5")
           = MkEntryButton "That's My Bag" [PStr r; PStr g; PStr b; PInt 1] None.
Proof.
  apply seeded_entries_load_as_rgba.
  exists "That's My Bag", "0.5_0.5_0.5". split; [reflexivity|].
  split; vm_compute; set_solver.
Defined.

Lemma split_pieces_clean (sep : ascii) (s : string) :
  Forall (λ p, count_char sep p = 0%nat) (split sep s).
Proof.
  induction s as [|c s IH]; [by repeat constructor|].
  cbn [split]. destruct (Ascii.eqb c sep) eqn:Ec.
  - by constructor.
  - destruct (split sep s) as [|p ps]; [by repeat constructor; cbn; rewrite Ec|].
    inversion IH as [|? ? Hp Hps]; subst.
    constructor; [|done]. cbn [count_char]. by rewrite Ec, Hp.
Qed.

(** X14. No colour channel of a loaded button contains an underscore. *)
Theorem channels_have_no_underscore (e : string * string) (p : string) :
  p ∈ channels (load_button e) → count_char "_" p = 0%nat.
Proof.
  rewrite channels_load_button. intros Hp.
  pose proof (split_pieces_clean "_" (snd e)) as H.
  rewrite Forall_forall in H. by apply H.
Qed.

Lemma channels_have_no_underscore_witness : count_char "_" "0.0" = 0%nat.
Proof.
  apply (channels_have_no_underscore ("Lorem Ipsum", "1_0.0_0.0")).
  vm_compute. set_solver.
Defined.

(** ** The application object *)

Lemma kept_refl (w : world) : kept w w.
Proof. unfold kept. split_and!; auto. Qed.

Lemma kept_trans (w1 w2 w3 : world) : kept w1 w2 → kept w2 w3 → kept w1 w3.
Proof.
  intros (Hd1 & Hc1 & Hr1 & Ht1 & Hk1 & Hf1) (Hd2 & Hc2 & Hr2 & Ht2 & Hk2 & Hf2).
  unfold kept. split_and!; try congruence; [set_solver | | auto].
  intros p. destruct (Hk1 p) as [H1|[H1 H1']], (Hk2 p) as [H2|[H2 H2']].
  - left. congruence.
  - right. split; congruence.
  - right. split; congruence.
  - congruence.
Qed.

Lemma kept_tables (w w' : world) (p name : string) :
  kept w w' → disk_table (store w') p name = disk_table (store w) p name.
Proof.
  intros (_ & _ & _ & _ & Hk & _). unfold disk_table.
  destruct (Hk p) as [->|[-> ->]]; done.
Qed.

Lemma kept_not_blocked (w w' : world) (p : string) :
  kept w w' → disk (store w) !! p ≠ Some Blocked → disk (store w') !! p ≠ Some Blocked.
Proof.
  intros (_ & _ & _ & _ & Hk & _) Hnb. destruct (Hk p) as [->|[H _]]; done.
Qed.

Lemma os_call_kept (w : world) : kept w (os_call w).2.
Proof.
  destruct w as [[d cs rg f tr lg] ds]. unfold os_call. cbn [store faults].
  destruct f as [|[] f]; cbn; unfold kept; cbn; split_and!; auto; done.
Qed.

Lemma still_there_lookup (made : string) (m : gmap string fnode) (p : string) :
  filter (λ e, still_there made e = true) m !! p = m !! p ∨
  (m !! p = Some Blocked ∧ filter (λ e, still_there made e = true) m !! p = None).
Proof.
  destruct (m !! p) as [[|tables]|] eqn:E.
  - destruct (directly_inside made p) eqn:Ei.
    + right. split; [done|]. apply map_lookup_filter_None_2. right.
      intros x Hx. rewrite E in Hx. injection Hx as <-.
      unfold still_there. cbn. by rewrite Ei.
    + left. apply map_lookup_filter_Some_2; [done|].
      unfold still_there. cbn. by rewrite Ei.
  - left. apply map_lookup_filter_Some_2; done.
  - left. apply map_lookup_filter_None_2. by left.
Qed.

Lemma make_dir_kept (p : string) (w : world) : kept w (make_dir p w).2.
Proof.
  unfold make_dir. destruct (path_exists w p); [apply kept_refl|].
  destruct w as [[d cs rg f tr lg] ds]. unfold kept. cbn.
  split_and!; auto; [set_solver|]. intros q. apply still_there_lookup.
Qed.

Lemma os_mkdir_kept (p : string) (w : world) : kept w (os_mkdir p w).2.
Proof.
  unfold os_mkdir, mbind, W_bind.
  pose proof (os_call_kept w) as H1. destruct (os_call w) as [[[]|e] w1]; [|done].
  eapply kept_trans; [exact H1|]. apply make_dir_kept.
Qed.

Lemma pass_if_exists_kept (body : W unit) (w : world) :
  kept w (body w).2 → kept w (pass_if_exists body w).2.
Proof. unfold pass_if_exists. by destruct (body w) as [[[]|[]] w1]. Qed.

Lemma mkdir_each_kept (ps : list string) (w : world) : kept w (mkdir_each ps w).2.
Proof.
  revert w. induction ps as [|d ps IH]; intros w; [apply kept_refl|].
  cbn [mkdir_each]. unfold mbind, W_bind.
  pose proof (pass_if_exists_kept _ w (os_mkdir_kept d w)) as H1.
  destruct (pass_if_exists (os_mkdir d) w) as [[[]|e] w1]; [|done].
  eapply kept_trans; [exact H1 | apply IH].
Qed.

Lemma os_makedirs_kept (p : string) (w : world) : kept w (os_makedirs p w).2.
Proof.
  unfold os_makedirs, mbind, W_bind.
  pose proof (mkdir_each_kept (missing_above w p) w) as H1.
  destruct (mkdir_each (missing_above w p) w) as [[[]|e] w1]; [|done].
  eapply kept_trans; [exact H1 | apply os_mkdir_kept].
Qed.

Lemma lift_log_kept (lvl : level) (msg : string) (w : world) :
  kept w (lift (Logger_log lvl msg) w).2 ∧
  (lift (Logger_log lvl msg) w).1 = Done tt ∧
  dirs (lift (Logger_log lvl msg) w).2 = dirs w ∧
  disk (store (lift (Logger_log lvl msg) w).2) = disk (store w) ∧
  faults (store (lift (Logger_log lvl msg) w).2) = faults (store w).
Proof.
  destruct w as [[d cs rg f tr lg] ds]. cbn. unfold kept. cbn. split_and!; auto.
Qed.

Lemma path_exists_kept (w w' : world) (q : string) :
  kept w w' → path_exists w q = true → path_exists w' q = true.
Proof.
  intros (Hd & _ & _ & _ & Hk & _). unfold path_exists.
  rewrite !orb_true_iff, !bool_decide_eq_true. intros [Hq|Hq]; [left; set_solver|].
  right. destruct (Hk q) as [->|[H _]]; [done|]. by rewrite H in Hq.
Qed.

Lemma os_call_exists (w : world) (q : string) :
  path_exists (os_call w).2 q = path_exists w q.
Proof.
  destruct w as [[d cs rg f tr lg] ds]. unfold os_call. cbn [store faults].
  by destruct f as [|[] f].
Qed.

Lemma still_there_keeps_files (made : string) (m : gmap string fnode) (q : string) :
  match filter (λ e, still_there made e = true) m !! q with
  | Some (Db _) => true
  | _ => false
  end
  = match m !! q with
    | Some (Db _) => true
    | _ => false
    end.
Proof. destruct (still_there_lookup made m q) as [->|[-> ->]]; done. Qed.

Lemma make_dir_exists (p : string) (w : world) (q : string) :
  path_exists (make_dir p w).2 q = true → path_exists w q = true ∨ q = p.
Proof.
  unfold make_dir. destruct (path_exists w p) eqn:Ep; [by left|].
  destruct w as [[d cs rg f tr lg] ds]. unfold path_exists. cbn.
  rewrite still_there_keeps_files, !orb_true_iff, !bool_decide_eq_true.
  intros [Hq|Hq]; [|by left; right].
  apply elem_of_union in Hq as [Hq|Hq]; [right; set_solver | by left; left].
Qed.

Lemma os_mkdir_exists (p : string) (w : world) (q : string) :
  path_exists (os_mkdir p w).2 q = true → path_exists w q = true ∨ q = p.
Proof.
  unfold os_mkdir, mbind, W_bind.
  pose proof (os_call_exists w q) as H1.
  destruct (os_call w) as [[[]|e] w1]; cbn [snd] in *.
  - intros H. apply make_dir_exists in H. rewrite H1 in H. done.
  - rewrite H1. by left.
Qed.

Lemma mkdir_each_exists (ps : list string) (w : world) (q : string) :
  path_exists (mkdir_each ps w).2 q = true → path_exists w q = true ∨ q ∈ ps.
Proof.
  revert w. induction ps as [|d ps IH]; intros w; [by left|].
  cbn [mkdir_each]. unfold mbind, W_bind.
  assert (H1 : path_exists (pass_if_exists (os_mkdir d) w).2 q = true →
               path_exists w q = true ∨ q = d).
  { unfold pass_if_exists. pose proof (os_mkdir_exists d w q) as H.
    by destruct (os_mkdir d w) as [[[]|[]] w1]. }
  destruct (pass_if_exists (os_mkdir d) w) as [[[]|e] w1]; cbn [snd] in *.
  - intros H. apply IH in H as [H|H]; [|right; set_solver].
    apply H1 in H as [H| ->]; [by left | right; set_solver].
  - intros H. apply H1 in H as [H| ->]; [by left | right; set_solver].
Qed.

(** With nothing failing. *)
Lemma os_call_calm (w : world) : faults (store w) = [] → os_call w = (Done tt, w).
Proof. destruct w as [[d cs rg f tr lg] ds]. cbn. by intros ->. Qed.

Lemma mkdir_each_calm (ps : list string) (w : world) :
  faults (store w) = [] → (mkdir_each ps w).1 = Done tt.
Proof.
  revert w. induction ps as [|d ps IH]; intros w Hf; [done|].
  cbn [mkdir_each]. unfold mbind, W_bind.
  pose proof (pass_if_exists_kept _ w (os_mkdir_kept d w)) as Hk.
  assert (H1 : (pass_if_exists (os_mkdir d) w).1 = Done tt).
  { unfold pass_if_exists, os_mkdir, mbind, W_bind. rewrite (os_call_calm w Hf).
    unfold make_dir. by destruct (path_exists w d). }
  destruct (pass_if_exists (os_mkdir d) w) as [r w1]. cbn [fst snd] in *. subst r.
  apply IH. destruct Hk as (_ & _ & _ & _ & _ & Hf1). auto.
Qed.

Lemma string_length_snoc (a : string) (c : ascii) :
  String.length (a +:+ String c EmptyString) = S (String.length a).
Proof. induction a as [|x a IH]; simpl; [done | by f_equal]. Qed.

Lemma ancestors_from_shorter (acc s : string) :
  Forall (λ a, String.length a < String.length acc + String.length s)%nat
         (ancestors_from acc s).
Proof.
  revert acc. induction s as [|c s IH]; intros acc; [constructor|].
  cbn [ancestors_from String.length].
  specialize (IH (acc +:+ String c EmptyString)). rewrite string_length_snoc in IH.
  assert (Hrest : Forall (λ a, String.length a < String.length acc + S (String.length s))%nat
                    (ancestors_from (acc +:+ String c EmptyString) s)).
  { eapply Forall_impl; [exact IH|]. cbn. intros a Ha. lia. }
  destruct (_ && _ && _)%bool; [constructor; [lia | done] | done].
Qed.

Lemma not_its_own_ancestor (p : string) : p ∉ ancestors p.
Proof.
  intros Hp. pose proof (ancestors_from_shorter EmptyString p) as H.
  rewrite Forall_forall in H. specialize (H p Hp). cbn in H. lia.
Qed.

Lemma take_while_subset {A} (f : A → bool) (l : list A) (x : A) :
  x ∈ take_while f l → x ∈ l.
Proof.
  induction l as [|y l IH]; cbn; [done|]. destruct (f y); [|set_solver].
  rewrite !elem_of_cons. intros [->|H]; auto.
Qed.

Lemma missing_above_ancestors (w : world) (p q : string) :
  q ∈ missing_above w p → q ∈ ancestors p.
Proof.
  unfold missing_above. rewrite !list_elem_of_In, <- in_rev, <- !list_elem_of_In. intros H.
  apply take_while_subset in H. by rewrite list_elem_of_In, <- in_rev, <- list_elem_of_In in H.
Qed.

Lemma os_makedirs_calm (p : string) (w : world) :
  faults (store w) = [] → path_exists w p = false →
  (os_makedirs p w).1 = Done tt ∧ path_exists (os_makedirs p w).2 p = true.
Proof.
  intros Hf Hp. unfold os_makedirs, mbind, W_bind.
  pose proof (mkdir_each_calm (missing_above w p) w Hf) as Hdone.
  pose proof (mkdir_each_kept (missing_above w p) w) as Hk.
  pose proof (mkdir_each_exists (missing_above w p) w p) as Hex.
  destruct (mkdir_each (missing_above w p) w) as [r w1]. cbn [fst snd] in *. subst r.
  assert (Hp1 : path_exists w1 p = false).
  { destruct (path_exists w1 p) eqn:E; [|done].
    destruct (Hex eq_refl) as [H|H]; [congruence|].
    apply missing_above_ancestors in H. by apply not_its_own_ancestor in H. }
  unfold os_mkdir, mbind, W_bind. rewrite os_call_calm by (by apply Hk).
  unfold make_dir. rewrite Hp1. cbn [fst snd]. split; [done|].
  unfold path_exists. cbn [dirs]. rewrite bool_decide_true by set_solver. done.
Qed.

Lemma os_makedirs_done (p : string) (w w' : world) :
  os_makedirs p w = (Done tt, w') → path_exists w' p = true.
Proof.
  unfold os_makedirs, mbind, W_bind.
  destruct (mkdir_each (missing_above w p) w) as [[[]|e] w1]; [|done].
  unfold os_mkdir, mbind, W_bind. destruct (os_call w1) as [[[]|e] w2]; [|done].
  unfold make_dir. destruct (path_exists w2 p); [done|].
  intros H. injection H as <-. unfold path_exists. cbn [dirs].
  rewrite bool_decide_true by set_solver. done.
Qed.

Lemma os_call_log (w : world) : log (store (os_call w).2) = log (store w).
Proof.
  destruct w as [[d cs rg f tr lg] ds]. unfold os_call. cbn [store faults].
  by destruct f as [|[] f].
Qed.

Lemma make_dir_log (p : string) (w : world) : log (store (make_dir p w).2) = log (store w).
Proof.
  unfold make_dir. destruct (path_exists w p); [done|].
  by destruct w as [[d cs rg f tr lg] ds].
Qed.

Lemma os_mkdir_log (p : string) (w : world) : log (store (os_mkdir p w).2) = log (store w).
Proof.
  unfold os_mkdir, mbind, W_bind. pose proof (os_call_log w) as H1.
  destruct (os_call w) as [[[]|e] w1]; [|done]. cbn [snd] in H1.
  by rewrite make_dir_log.
Qed.

Lemma mkdir_each_log (ps : list string) (w : world) :
  log (store (mkdir_each ps w).2) = log (store w).
Proof.
  revert w. induction ps as [|d ps IH]; intros w; [done|].
  cbn [mkdir_each]. unfold mbind, W_bind.
  assert (H1 : log (store (pass_if_exists (os_mkdir d) w).2) = log (store w)).
  { unfold pass_if_exists. pose proof (os_mkdir_log d w) as H.
    by destruct (os_mkdir d w) as [[[]|[]] w1]. }
  destruct (pass_if_exists (os_mkdir d) w) as [[[]|e] w1]; [|done]. cbn [snd] in H1.
  by rewrite IH.
Qed.

Lemma os_makedirs_log (p : string) (w : world) :
  log (store (os_makedirs p w).2) = log (store w).
Proof.
  unfold os_makedirs, mbind, W_bind. pose proof (mkdir_each_log (missing_above w p) w) as H1.
  destruct (mkdir_each (missing_above w p) w) as [[[]|e] w1]; [|done]. cbn [snd] in H1.
  by rewrite os_mkdir_log.
Qed.

(** [init_sqlite3_dir], every case at once. *)
Lemma init_sqlite3_dir_spec (u : string) (w : world) :
  let folder := os_path_join u "sqlite" in
  ∃ r w', init_sqlite3_dir u w = (Done r, w') ∧ kept w w' ∧
    (if path_exists w folder then
       r = Some folder ∧ dirs w' = dirs w ∧ disk (store w') = disk (store w) ∧
       faults (store w') = faults (store w) ∧
       log (store w') = (log (store w) ++ [(Info, folder_message r)])%list
     else
       (r = Some folder ∧ path_exists w' folder = true ∧
        log (store w') = (log (store w) ++ [(Debug, created_message folder);
                                             (Info, folder_message r)])%list) ∨
       (r = None ∧ faults (store w) ≠ [] ∧
        log (store w') = (log (store w) ++ [(Error, create_error_message folder);
                                             (Info, folder_message r)])%list)).
Proof.
  intros folder. unfold init_sqlite3_dir. cbv zeta. fold folder.
  unfold mbind at 1, W_bind at 1, wtry, mbind at 1, W_bind at 1, os_path_exists.
  destruct (path_exists w folder) eqn:Ep; cbn [negb].
  - unfold mbind, W_bind, mret, W_ret.
    destruct (lift_log_kept Info (folder_message (Some folder)) w) as (Hk & Hd & Hds & Hdk & Hf).
    change (Logger_info ?m) with (Logger_log Info m).
    change ("Sqlite3 folder is: " +:+ str_of_folder (Some folder)) with (folder_message (Some folder)).
    destruct (lift (Logger_log Info (folder_message (Some folder))) w) as [r1 w1] eqn:E1.
    cbn [fst snd] in *. subst r1. eexists _, _. split; [reflexivity|]. split; [done|].
    split_and!; auto.
    destruct w as [[d cs rg f tr lg] ds]. cbn in E1. by injection E1 as <-.
  - unfold mbind at 1, W_bind at 1. unfold mbind at 1, W_bind at 1.
    pose proof (os_makedirs_kept folder w) as Hk1.
    pose proof (os_makedirs_log folder w) as Hl1.
    pose proof (os_makedirs_done folder w) as Hd1.
    pose proof (os_makedirs_calm folder w) as Hc1.
    destruct (os_makedirs folder w) as [[[]|e] w1]; cbn [fst snd] in *.
    + change (Logger_debug ?m) with (Logger_log Debug m).
      change (Logger_info ?m) with (Logger_log Info m).
      change ("Created folder " +:+ dq +:+ folder +:+ dq) with (created_message folder).
      destruct (lift_log_kept Debug (created_message folder) w1) as (Hk2 & Hd2 & Hds2 & Hdk2 & Hf2).
      destruct (lift (Logger_log Debug (created_message folder)) w1) as [r2 w2] eqn:E2.
      cbn [fst snd] in *. subst r2. unfold mret at 1, W_ret at 1. unfold mret at 1, W_ret at 1.
      unfold mbind, W_bind.
      change ("Sqlite3 folder is: " +:+ str_of_folder (Some folder)) with (folder_message (Some folder)).
      destruct (lift_log_kept Info (folder_message (Some folder)) w2) as (Hk3 & Hd3 & Hds3 & Hdk3 & Hf3).
      destruct (lift (Logger_log Info (folder_message (Some folder))) w2) as [r3 w3] eqn:E3.
      cbn [fst snd] in *. subst r3. unfold mret, W_ret. eexists _, _. split; [reflexivity|].
      split; [eauto using kept_trans|]. left. split; [done|].
      split; [eauto using path_exists_kept, kept_trans|].
      destruct w1 as [[d cs rg f tr lg] ds]. cbn in E2. injection E2 as <-.
      cbn in E3. injection E3 as <-. cbn in *. rewrite Hl1, <- app_assoc. done.
    + change (Logger_exception ?m) with (Logger_log Error m).
      change (Logger_info ?m) with (Logger_log Info m).
      change ("Error creating folder " +:+ dq +:+ folder +:+ dq +:+ "!") with (create_error_message folder).
      unfold mbind at 2, W_bind at 2.
      destruct (lift_log_kept Error (create_error_message folder) w1) as (Hk2 & Hd2 & Hds2 & Hdk2 & Hf2).
      destruct (lift (Logger_log Error (create_error_message folder)) w1) as [r2 w2] eqn:E2.
      cbn [fst snd] in *. subst r2. unfold mret at 1, W_ret at 1.
      unfold mbind, W_bind.
      change ("Sqlite3 folder is: " +:+ str_of_folder None) with (folder_message None).
      destruct (lift_log_kept Info (folder_message None) w2) as (Hk3 & Hd3 & Hds3 & Hdk3 & Hf3).
      destruct (lift (Logger_log Info (folder_message None)) w2) as [r3 w3] eqn:E3.
      cbn [fst snd] in *. subst r3. unfold mret, W_ret. eexists _, _. split; [reflexivity|].
      split; [eauto using kept_trans|]. right. split; [done|].
      split; [intros Hf; by destruct (Hc1 Hf Ep)|].
      destruct w1 as [[d cs rg f tr lg] ds]. cbn in E2. injection E2 as <-.
      cbn in E3. injection E3 as <-. cbn in *. rewrite Hl1, <- app_assoc. done.
Qed.

Lemma lift_run {A} (m : M A) (w : world) (a : A) (s' : state) :
  m (store w) = (Ret a, s') → lift m w = (Done a, World s' (dirs w)).
Proof. unfold lift. by intros ->. Qed.

Lemma init_sqlite3_dir_result (u : string) (w : world) :
  let folder := os_path_join u "sqlite" in
  ∃ r w', init_sqlite3_dir u w = (Done r, w') ∧ kept w w' ∧
    ((r = Some folder ∧ path_exists w' folder = true) ∨
     (r = None ∧ path_exists w folder = false ∧ faults (store w) ≠ [])) ∧
    ∃ lg, log (store w') = (log (store w) ++ lg ++ [(Info, folder_message r)])%list.
Proof.
  intros folder.
  destruct (init_sqlite3_dir_spec u w) as (r & w' & E & Hk & Hcase). fold folder in Hcase.
  exists r, w'. split; [done|]. split; [done|].
  destruct (path_exists w folder) eqn:Ep.
  - destruct Hcase as (-> & Hds & Hdk & _ & Hlog). split.
    + left. split; [done|]. unfold path_exists in *. by rewrite Hds, Hdk.
    + exists []. done.
  - destruct Hcase as [(-> & Hex & Hlog)|(-> & Hf & Hlog)].
    + split; [by left|]. exists [(Debug, created_message folder)]. done.
    + split; [by right|]. exists [(Error, create_error_message folder)]. done.
Qed.

Lemma string_length_app (a b : string) :
  String.length (a +:+ b) = (String.length a + String.length b)%nat.
Proof. induction a as [|x a IH]; simpl; [done | by f_equal]. Qed.

(** The database is not the folder it lies in. *)
Lemma db_not_folder (a : string) : os_path_join a DB_NAME ≠ a.
Proof.
  intros H. apply (f_equal String.length) in H. revert H.
  unfold os_path_join, DB_NAME. cbn [Ascii.eqb Bool.eqb].
  destruct (_ || _)%bool; rewrite !string_length_app; cbn [String.length]; lia.
Qed.

(** The constructor, every case at once. *)
Lemma SqliteApp_init_spec (u : string) (w : world) :
  let folder := os_path_join u "sqlite" in
  let db := os_path_join folder DB_NAME in
  ∃ w1 w', (init_sqlite3_dir u w).2 = w1 ∧ kept w w1 ∧ dirs w' = dirs w1 ∧
    ((SqliteApp_init u w = (Throw (Exn (NameError "logging")), w') ∧
      path_exists w folder = false ∧ faults (store w) ≠ [] ∧ store w' = store w1) ∨
     (∃ b, SqliteApp_init u w = (Done (MkSqliteApp u (Some folder) b), w') ∧
           init_sqlite3 (Some folder) (store w1) = (Ret b, store w') ∧
           path_exists w1 folder = true)).
Proof.
  intros folder db.
  destruct (init_sqlite3_dir_result u w) as (r & w1 & E & Hk & Hcase & _). fold folder in Hcase.
  exists w1. unfold SqliteApp_init, mbind, W_bind. rewrite E. cbn [snd].
  destruct Hcase as [(-> & Hex)|(-> & Hex & Hf)].
  - destruct (init_sqlite3_effect folder (store w1)) as (b & s' & E1 & _).
    rewrite (lift_run _ _ _ _ E1). unfold mret, W_ret.
    eexists. split; [done|]. split; [done|]. split; [|right; exists b; split; [reflexivity|]].
    + done.
    + by split.
  - unfold lift. cbn.
    eexists. split; [done|]. split; [done|]. split; [|left; split; [reflexivity|]].
    + done.
    + by split_and!.
Qed.

(** X15. Once [self.user_data_dir] has yielded its path,
    [init_sqlite3_dir] never raises.  It returns the folder
    [user_data_dir/sqlite], which then exists, or [None], and [None] only
    when the folder was missing and some call could fail.  No directory
    is removed, no connection and no table is touched, and its last log
    line names what it returns. *)
Theorem init_sqlite3_dir_never_raises (u : string) (w : world) :
  let folder := os_path_join u "sqlite" in
  let after := init_sqlite3_dir u w in
  ((after.1 = Done (Some folder) ∧ path_exists after.2 folder = true) ∨
   (after.1 = Done None ∧ path_exists w folder = false ∧ faults (store w) ≠ [])) ∧
  dirs w ⊆ dirs after.2 ∧
  conns (store after.2) = conns (store w) ∧
  (∀ p name, disk_table (store after.2) p name = disk_table (store w) p name) ∧
  ∃ r lg, after.1 = Done r ∧
          log (store after.2) = (log (store w) ++ lg ++ [(Info, folder_message r)])%list.
Proof.
  intros folder after. subst after.
  destruct (init_sqlite3_dir_result u w) as (r & w' & E & Hk & Hcase & lg & Hlog).
  fold folder in Hcase. rewrite E. cbn [fst snd]. split_and!.
  - destruct Hcase as [(-> & H)|(-> & H)]; [by left | by right].
  - apply Hk.
  - apply Hk.
  - intros p name. by apply kept_tables.
  - by exists r, lg.
Qed.

(** X16. When the folder exists already, [init_sqlite3_dir] returns it
    and changes nothing: no directory is made, the files are as before,
    no system call that could fail is made, and the only log line is the
    one naming the folder. *)
Theorem init_sqlite3_dir_existing_folder (u : string) (w : world) :
  let folder := os_path_join u "sqlite" in
  let after := init_sqlite3_dir u w in
  path_exists w folder = true →
  after.1 = Done (Some folder) ∧
  dirs after.2 = dirs w ∧
  disk (store after.2) = disk (store w) ∧
  faults (store after.2) = faults (store w) ∧
  log (store after.2) = (log (store w) ++ [(Info, folder_message (Some folder))])%list.
Proof.
  intros folder after Hex. subst after.
  destruct (init_sqlite3_dir_spec u w) as (r & w' & E & _ & Hcase).
  fold folder in Hcase. rewrite Hex in Hcase. rewrite E. cbn [fst snd].
  destruct Hcase as (-> & Hds & Hdk & Hf & Hlog). done.
Qed.

Lemma init_sqlite3_dir_existing_folder_witness :
  let w := installed_world [true] in
  let after := init_sqlite3_dir home w in
  after.1 = Done (Some home_sqlite) ∧
  dirs after.2 = dirs w ∧
  disk (store after.2) = disk (store w) ∧
  faults (store after.2) = [true] ∧
  log (store after.2) = [(Info, folder_message (Some home_sqlite))].
Proof.
  apply (init_sqlite3_dir_existing_folder home (installed_world [true])).
  vm_compute. reflexivity.
Defined.

(** X17. With nothing failing, [init_sqlite3_dir] returns the folder
    and the folder exists afterwards, whatever was missing above it; when
    it had to make the folder it logs so before naming it. *)
Theorem init_sqlite3_dir_makes_the_folder (u : string) (w : world) :
  let folder := os_path_join u "sqlite" in
  let after := init_sqlite3_dir u w in
  faults (store w) = [] →
  after.1 = Done (Some folder) ∧
  path_exists after.2 folder = true ∧
  faults (store after.2) = [] ∧
  (path_exists w folder = false →
   log (store after.2) = (log (store w) ++ [(Debug, created_message folder);
                                            (Info, folder_message (Some folder))])%list).
Proof.
  intros folder after Hf. subst after.
  destruct (init_sqlite3_dir_spec u w) as (r & w' & E & Hk & Hcase).
  fold folder in Hcase. rewrite E. cbn [fst snd].
  assert (Hf' : faults (store w') = []) by (by apply Hk).
  destruct (path_exists w folder) eqn:Ep.
  - destruct Hcase as (-> & Hds & Hdk & _ & Hlog). split_and!; try done.
    unfold path_exists in *. by rewrite Hds, Hdk.
  - destruct Hcase as [(-> & Hex & Hlog)|(-> & Hnf & Hlog)]; [done | done].
Qed.

Lemma init_sqlite3_dir_makes_the_folder_witness :
  let w := fresh_world [] in
  let after := init_sqlite3_dir home w in
  after.1 = Done (Some home_sqlite) ∧
  path_exists after.2 home_sqlite = true ∧
  faults (store after.2) = [] ∧
  (path_exists w home_sqlite = false →
   log (store after.2) = [(Debug, created_message home_sqlite);
                          (Info, folder_message (Some home_sqlite))]).
Proof.
  apply (init_sqlite3_dir_makes_the_folder home (fresh_world [])).
  reflexivity.
Defined.

(** X18. The constructor either raises [NameError] for [logging], and
    that only when the folder could not be provided, leaving every table
    as it was; or it returns an object whose [sqlite_dir] is the folder,
    which exists, and whose [initialized] tells whether the 100 rows drawn
    were appended to [entries] or the rows were left as they were. *)
Theorem SqliteApp_init_object (u : string) (w : world) :
  let folder := os_path_join u "sqlite" in
  let db := os_path_join folder DB_NAME in
  let after := SqliteApp_init u w in
  (after.1 = Throw (Exn (NameError "logging")) ∧
   path_exists w folder = false ∧ faults (store w) ≠ [] ∧
   ∀ p name, disk_table (store after.2) p name = disk_table (store w) p name) ∨
  (∃ b, after.1 = Done (MkSqliteApp u (Some folder) b) ∧
        path_exists after.2 folder = true ∧
        disk_rows (store after.2) db "entries"
        = (disk_rows (store w) db "entries"
           ++ if b then tape_rows (rng (store w)) 100 else [])%list).
Proof.
  intros folder db after. subst after.
  destruct (SqliteApp_init_spec u w) as (w1 & w' & _ & Hk & Hds & Hcase).
  fold folder in Hcase.
  destruct Hcase as [(E & Hex & Hf & Hst)|(b & E & E1 & Hex)]; rewrite E; cbn [fst snd].
  - left. split_and!; try done. intros p name. rewrite Hst. by apply kept_tables.
  - right. exists b. split; [done|].
    destruct (init_sqlite3_effect folder (store w1))
      as (b' & s' & E' & _ & Hother & _ & Hcase).
    rewrite E1 in E'. injection E' as <- <-. fold db in Hcase, Hother. split.
    + unfold path_exists in *. rewrite Hds.
      rewrite (Hother folder) by (intros H; by apply (db_not_folder folder)). done.
    + assert (Hrows : disk_rows (store w1) db "entries" = disk_rows (store w) db "entries").
      { unfold disk_rows. by rewrite (kept_tables w w1). }
      assert (Hrng : rng (store w1) = rng (store w)) by apply Hk.
      rewrite <- Hrows, <- Hrng.
      destruct b.
      * destruct Hcase as (Ht & _). unfold disk_rows at 1. rewrite Ht. cbn [rows].
        by rewrite entries_or_new_rows.
      * destruct Hcase as ([Ht|Ht] & _); unfold disk_rows at 1; rewrite Ht.
        -- fold (disk_rows (store w1) db "entries"). by rewrite app_nil_r.
        -- by rewrite entries_or_new_rows, app_nil_r.
Qed.

(** X19. [on_stop] raises [TypeError] and changes nothing when
    [sqlite_dir] is [None].  Otherwise it never raises: it returns [True]
    with the [entries] table, which was there, emptied, or [False] with
    the table as it was; no directory and no connection changes. *)
Theorem on_stop_clears_or_leaves (self : SqliteApp) (w : world) :
  let after := on_stop self w in
  match sqlite_dir self with
  | None => after = (Throw (TypeError no_folder_message), w)
  | Some d =>
      let db := os_path_join d DB_NAME in
      dirs after.2 = dirs w ∧
      conns (store after.2) = conns (store w) ∧
      ((after.1 = Done true ∧ is_Some (disk_table (store w) db "entries") ∧
        disk_rows (store after.2) db "entries" = []) ∨
       (after.1 = Done false ∧
        disk_table (store after.2) db "entries" = disk_table (store w) db "entries"))
  end.
Proof.
  intros after. subst after. unfold on_stop.
  destruct (sqlite_dir self) as [d|]; [|reflexivity].
  set (db := os_path_join d DB_NAME).
  destruct (delete_sqlite_entries_effect db "entries" (store w))
    as (b & s' & E & Hc & _ & _ & _ & _ & Hcase).
  rewrite (lift_run _ _ _ _ E). cbn [fst snd store dirs]. split; [done|]. split; [done|].
  destruct b.
  - left. destruct Hcase as (t & Ht & Ht' & _). split_and!; [done | by rewrite Ht |].
    unfold disk_rows. by rewrite Ht'.
  - right. by destruct Hcase as (Hsame & _).
Qed.

(** X20. An object the constructor returned has the folder as its
    [sqlite_dir], so its [on_stop] never raises, in whatever state it is
    called: on [True] the [entries] table has no rows, on [False] its
    rows are as before. *)
Theorem constructed_app_stops (u : string) (w : world) (self : SqliteApp) :
  let folder := os_path_join u "sqlite" in
  let db := os_path_join folder DB_NAME in
  (SqliteApp_init u w).1 = Done self →
  user_data_dir self = u ∧ sqlite_dir self = Some folder ∧
  ∀ w2, ∃ b, (on_stop self w2).1 = Done b ∧
             (b = true → disk_rows (store (on_stop self w2).2) db "entries" = []) ∧
             (b = false → disk_rows (store (on_stop self w2).2) db "entries"
                          = disk_rows (store w2) db "entries").
Proof.
  intros folder db Hinit.
  destruct (SqliteApp_init_spec u w) as (w1 & w' & _ & _ & _ & Hcase).
  fold folder in Hcase.
  destruct Hcase as [(E & _)|(b0 & E & _)]; rewrite E in Hinit; [done|].
  injection Hinit as <-. cbn [user_data_dir sqlite_dir]. split; [done|]. split; [done|].
  intros w2. unfold on_stop. cbn [sqlite_dir]. fold db.
  destruct (delete_sqlite_entries_effect db "entries" (store w2))
    as (b & s' & E2 & _ & _ & _ & _ & _ & Hcase).
  rewrite (lift_run _ _ _ _ E2). cbn [fst snd store]. exists b. split; [done|].
  destruct b; (split; [try done | try done]); intros _.
  - destruct Hcase as (t & _ & Ht' & _). unfold disk_rows. by rewrite Ht'.
  - destruct Hcase as (Hsame & _). unfold disk_rows. by rewrite Hsame.
Qed.

Lemma constructed_app_stops_witness :
  let self := MkSqliteApp home (Some home_sqlite) true in
  let db := os_path_join home_sqlite DB_NAME in
  user_data_dir self = home ∧ sqlite_dir self = Some home_sqlite ∧
  ∀ w2, ∃ b, (on_stop self w2).1 = Done b ∧
             (b = true → disk_rows (store (on_stop self w2).2) db "entries" = []) ∧
             (b = false → disk_rows (store (on_stop self w2).2) db "entries"
                          = disk_rows (store w2) db "entries").
Proof.
  apply (constructed_app_stops home (fresh_world [])).
  vm_compute. reflexivity.
Defined.

(** X21. A whole run with nothing failing, the database within reach
    and an [entries] table that is already there having two columns: the
    constructor returns an initialised object, the [entries]
    table holds its old rows followed by the 100 drawn, and [on_stop]
    returns [True] and leaves the table empty. *)
Theorem first_run_of_the_app (u : string) (w : world) :
  let folder := os_path_join u "sqlite" in
  let db := os_path_join folder DB_NAME in
  faults (store w) = [] →
  disk (store w) !! db ≠ Some Blocked →
  (∀ t, disk_table (store w) db "entries" = Some t → length (columns t) = 2%nat) →
  let started := SqliteApp_init u w in
  ∃ self, started.1 = Done self ∧
          sqlite_dir self = Some folder ∧ initialized self = true ∧
          disk_rows (store started.2) db "entries"
          = (disk_rows (store w) db "entries" ++ tape_rows (rng (store w)) 100)%list ∧
          let stopped := on_stop self started.2 in
          stopped.1 = Done true ∧
          disk_rows (store stopped.2) db "entries" = [].
Proof.
  intros folder db Hf Hnb Hcols started. subst started.
  destruct (SqliteApp_init_spec u w) as (w1 & w' & _ & Hk & _ & Hcase).
  fold folder in Hcase.
  destruct Hcase as [(_ & _ & Hnf & _)|(b & E & E1 & _)]; [done|].
  destruct (init_sqlite3_calm_table folder (store w1)) as (s' & E' & Hf' & _ & Ht & _).
  { by apply Hk. }
  { fold db. by apply (kept_not_blocked w w1). }
  { fold db. intros t. rewrite (kept_tables w w1) by done. apply Hcols. }
  fold db in Ht. rewrite E1 in E'. injection E' as -> <-.
  rewrite E. cbn [fst snd]. eexists. split; [reflexivity|].
  cbn [sqlite_dir initialized]. split; [done|]. split; [done|].
  assert (Hrows : disk_rows (store w1) db "entries" = disk_rows (store w) db "entries").
  { unfold disk_rows. by rewrite (kept_tables w w1). }
  assert (Hrng : rng (store w1) = rng (store w)) by apply Hk.
  rewrite Hrows, Hrng in Ht. split.
  - unfold disk_rows at 1. by rewrite Ht.
  - unfold on_stop. cbn [sqlite_dir]. fold db.
    destruct (delete_sqlite_entries_calm db "entries" (store w') _ Hf' Ht)
      as (s2 & E2 & _ & _ & Ht2).
    rewrite (lift_run _ _ _ _ E2). cbn [fst snd store]. split; [done|].
    unfold disk_rows. by rewrite Ht2.
Qed.

Lemma first_run_of_the_app_witness :
  let w := fresh_world [] in
  let db := os_path_join home_sqlite DB_NAME in
  let started := SqliteApp_init home w in
  ∃ self, started.1 = Done self ∧
          sqlite_dir self = Some home_sqlite ∧ initialized self = true ∧
          disk_rows (store started.2) db "entries"
          = (disk_rows (store w) db "entries" ++ tape_rows (rng (store w)) 100)%list ∧
          let stopped := on_stop self started.2 in
          stopped.1 = Done true ∧
          disk_rows (store stopped.2) db "entries" = [].
Proof.
  apply (first_run_of_the_app home (fresh_world [])).
  - reflexivity.
  - vm_compute. discriminate.
  - vm_compute. discriminate.
Defined.
